(** * artswave-backend: the register and login routes of [server.js]

    A shallow embedding of the two Express handlers [POST /api/register]
    and [POST /api/login], of the Mongoose schema [userSchema] with its
    [pre('save')] hook, and of the parts of Mongoose, MongoDB and bcrypt
    the handlers rely on.

    The handlers are [async] functions: every [await] hands control back
    to the event loop.  A handler is therefore embedded as a program
    whose nodes are the awaited operations ([prog]); running it to the
    end against a collection gives the behaviour of one request served
    alone ([exec]), and advancing several programs one awaited operation
    at a time gives the behaviour of requests in flight together
    ([run_pool]).

    The handlers are embedded on a body whose two fields are strings
    ([register], [login]) and on a body whose fields are any JSON value
    ([register_json], [login_json]): a number or a boolean is cast to
    its text by Mongoose, an array or an object in the place of the
    username becomes a filter with operators, and a password that is
    not a string makes [bcrypt.compare] throw.  On a body of strings
    the two embeddings are the same programs ([register_json_of_body],
    [login_json_of_body]). *)

From Stdlib Require Import String Ascii List ZArith Lia Bool Arith.
Import ListNotations.
Open Scope string_scope.
Open Scope list_scope.

Set Implicit Arguments.

(** ** Data model *)

(** The fields of [userSchema] (lines 28-46).  Dates are milliseconds
    since the epoch; [lastLogin] has no default, so it is absent on a
    fresh document. *)
Record UserDoc : Type := mkUser {
  username : string;
  password : string;
  createdAt : Z;
  lastLogin : option Z
}.

(** The [users] collection, in insertion order.  A document's [_id] is
    its position: documents are never removed. *)
Definition Collection : Type := list UserDoc.

Inductive path : Type := Pusername | Ppassword | PcreatedAt | PlastLogin.

Definition path_eqb (p q : path) : bool :=
  match p, q with
  | Pusername, Pusername | Ppassword, Ppassword
  | PcreatedAt, PcreatedAt | PlastLogin, PlastLogin => true
  | _, _ => false
  end.

(** A hydrated Mongoose document: the field values, whether it was built
    by [new User(...)] and not yet stored, and the paths assigned since
    it was built or loaded. *)
Record Document : Type := mkDoc {
  _id : nat;
  fields : UserDoc;
  isNew : bool;
  modifiedPaths : list path
}.

Definition isModified (d : Document) (p : path) : bool :=
  existsb (path_eqb p) (modifiedPaths d).

(** What Mongoose and the MongoDB driver throw. *)
Inductive validatorKind : Type := VRequired | VMinlength | VMaxlength | VCast.

Inductive error : Type :=
| ValidationError (errors : list (path * validatorKind))
| DuplicateKeyError                        (* MongoServerError E11000 *)
| CastError (p : path)                     (* a filter value that does not cast *)
| Thrown (message : string).               (* any other Error *)

(** ** HTTP side *)

(** [req.body] after [bodyParser.json()] when each of the two fields
    is either missing or a string.  [Fields] below is the body with
    fields of any type, and [of_body] takes the one to the other. *)
Record Body : Type := mkBody {
  req_username : option string;
  req_password : option string
}.

(** JS truthiness of such a field: [undefined] and [''] are falsy. *)
Definition falsy (v : option string) : bool :=
  match v with
  | None => true
  | Some s => s =? ""
  end.

Definition str (v : option string) : string :=
  match v with
  | None => ""
  | Some s => s
  end.

(** A value as [bodyParser.json()] leaves it in a field of [req.body]:
    any JSON value, or [undefined] for a field that is missing.  A
    number is carried as the text [String(n)] gives for it. *)
#[local] Unset Elimination Schemes.
Inductive jsval : Type :=
| JSundefined
| JSnull
| JSbool (b : bool)
| JSnumber (text : string)
| JSstring (s : string)
| JSarray (items : list jsval)
| JSobject (members : list (string * jsval)).
#[local] Set Elimination Schemes.

(** [req.body] as the routes destructure it (lines 81 and 112). *)
Record Fields : Type := mkFields {
  field_username : jsval;
  field_password : jsval
}.

(** [!v]: [undefined], [null], [false], [0] and [''] are falsy, every
    array and object is truthy. *)
Definition js_falsy (v : jsval) : bool :=
  match v with
  | JSundefined | JSnull => true
  | JSbool b => negb b
  | JSnumber t => t =? "0"
  | JSstring s => s =? ""
  | JSarray _ | JSobject _ => false
  end.

(** Mongoose's cast of a value to the schema type [String]: a string
    is kept, a number or a boolean becomes its text, an array or an
    object is refused.  [undefined] and [null] stay without a value,
    which the [required] validator treats like the empty string; the
    routes refuse them before. *)
Definition castString (v : jsval) : option string :=
  match v with
  | JSundefined | JSnull => Some ""
  | JSbool b => Some (if b then "true" else "false")
  | JSnumber t => Some t
  | JSstring s => Some s
  | JSarray _ | JSobject _ => None
  end.

Definition field (v : option string) : jsval :=
  match v with
  | None => JSundefined
  | Some s => JSstring s
  end.

(** A body of strings among the bodies of any type. *)
Definition of_body (b : Body) : Fields :=
  mkFields (field (req_username b)) (field (req_password b)).

#[local] Unset Elimination Schemes.
Inductive json : Type :=
| JBool (b : bool)
| JString (s : string)
| JDate (t : Z)
| JObject (members : list (string * json)).
#[local] Set Elimination Schemes.

Record Response : Type := mkResponse {
  status : nat;
  body : json
}.

(** Whether a member named [k] occurs in a JSON value, at any depth. *)
Fixpoint mentions (k : string) (j : json) : bool :=
  match j with
  | JObject ms => existsb (fun m => (fst m =? k)%string || mentions k (snd m)) ms
  | _ => false
  end.

(** [res.status(c).json({ success: false, message: m })] *)
Definition failure (c : nat) (m : string) : Response :=
  mkResponse c (JObject [("success", JBool false); ("message", JString m)]).

(** What the process reads from its surroundings while it serves one
    request: the value of [Date.now()] and the random bytes [genSalt]
    draws, already in bcrypt's radix-64 text. *)
Record Env : Type := mkEnv {
  now : Z;
  entropy : string
}.

(** ** bcrypt *)

(** The Blowfish key schedule and encryption are not part of this
    repository: the 31 characters they produce from a salt and a
    password are a parameter of the development. *)
Class Blowfish : Type := eks_digest : string -> string -> string.

(** The cost in two decimal digits, and the head of a salt: version
    and cost. *)
Definition two_digits (n : nat) : string :=
  String (ascii_of_nat (48 + n / 10)) (String (ascii_of_nat (48 + n mod 10)) "").

Definition bcrypt_prefix (rounds : nat) : string :=
  ("$2b$" ++ two_digits rounds ++ "$")%string.

(** Truncate or pad with ['.'] (radix-64 zero) to exactly [n] characters. *)
Fixpoint fit (n : nat) (s : string) : string :=
  match n with
  | O => ""
  | S n' =>
      match s with
      | EmptyString => String "." (fit n' "")
      | String c s' => String c (fit n' s')
      end
  end.

(** [bcrypt.genSalt(rounds)]: version, cost and 22 characters of salt. *)
Definition genSalt (rounds : nat) (rnd : string) : string :=
  (bcrypt_prefix rounds ++ fit 22 rnd)%string.

(** [bcrypt.hash(pw, salt)]: the salt followed by the digest. *)
Definition bcrypt_hash `{Blowfish} (pw salt : string) : string :=
  (salt ++ eks_digest salt pw)%string.

(** [bcrypt.compare(pw, h)]: hash again under the salt [h] starts with
    and compare the two strings. *)
Definition bcrypt_compare `{Blowfish} (pw h : string) : bool :=
  bcrypt_hash pw (substring 0 29 h) =? h.


(** ** Mongoose validation *)

(** The validators declared on [username] (lines 29-35) and on
    [password] (lines 36-40); the first one that fails is reported. *)
Definition validate_username (v : string) : option validatorKind :=
  if v =? "" then Some VRequired
  else if (String.length v <? 3)%nat then Some VMinlength
  else if (30 <? String.length v)%nat then Some VMaxlength
  else None.

Definition validate_password (v : string) : option validatorKind :=
  if v =? "" then Some VRequired
  else if (String.length v <? 6)%nat then Some VMinlength
  else None.

Definition tag (p : path) (r : option validatorKind) : list (path * validatorKind) :=
  match r with
  | None => []
  | Some k => [(p, k)]
  end.

Definition validate (u : UserDoc) : list (path * validatorKind) :=
  tag Pusername (validate_username (username u)) ++
  tag Ppassword (validate_password (password u)).

(** ** Storage operations *)

Definition has_username (u : string) (d : UserDoc) : bool := username d =? u.

(** [User.findOne({ username })]: the first match, with its position. *)
Fixpoint find_from (i : nat) (u : string) (c : Collection) : option (nat * UserDoc) :=
  match c with
  | [] => None
  | d :: c' => if has_username u d then Some (i, d) else find_from (S i) u c'
  end.

Definition findOne (u : string) (c : Collection) : option (nat * UserDoc) :=
  find_from 0 u c.

(** [User.findOne({ username: { ... } })] with operators: the first
    document whose username the filter [q] matches. *)
Fixpoint find_where_from (i : nat) (q : string -> bool) (c : Collection) :
  option (nat * UserDoc) :=
  match c with
  | [] => None
  | d :: c' => if q (username d) then Some (i, d) else find_where_from (S i) q c'
  end.

Definition findOneWhere (q : string -> bool) (c : Collection) : option (nat * UserDoc) :=
  find_where_from 0 q c.

(** [insertOne] under the unique index that [unique: true] (line 32)
    puts on [username]: the check and the insertion are one operation
    of the storage engine. *)
Definition insertOne (d : UserDoc) (c : Collection) : (error + nat) * Collection :=
  if existsb (has_username (username d)) c
  then (inl DuplicateKeyError, c)
  else (inr (length c), c ++ [d]).

(** [$set] of the listed paths, values taken from [src]. *)
Definition set_path (src : UserDoc) (p : path) (d : UserDoc) : UserDoc :=
  match p with
  | Pusername => mkUser (username src) (password d) (createdAt d) (lastLogin d)
  | Ppassword => mkUser (username d) (password src) (createdAt d) (lastLogin d)
  | PcreatedAt => mkUser (username d) (password d) (createdAt src) (lastLogin d)
  | PlastLogin => mkUser (username d) (password d) (createdAt d) (lastLogin src)
  end.

Definition set_paths (ps : list path) (src d : UserDoc) : UserDoc :=
  fold_right (set_path src) d ps.

Fixpoint update_at (i : nat) (f : UserDoc -> UserDoc) (c : Collection) : Collection :=
  match c, i with
  | [], _ => []
  | d :: c', O => f d :: c'
  | d :: c', S i' => d :: update_at i' f c'
  end.

(** [updateOne({ _id }, { $set: ... })] *)
Definition updateOne (i : nat) (ps : list path) (src : UserDoc) (c : Collection) : Collection :=
  update_at i (set_paths ps src) c.

(** ** Programs over awaited operations *)

Inductive op : Type -> Type :=
| FindOne (u : string) : op (option (nat * UserDoc))
| InsertOne (d : UserDoc) : op (error + nat)
| UpdateOne (i : nat) (ps : list path) (src : UserDoc) : op unit
| GenSalt (rounds : nat) : op string
| Hash (pw salt : string) : op string
| Compare (pw h : string) : op bool
| FindOneWhere (q : string -> bool) : op (option (nat * UserDoc)).

Inductive prog (R : Type) : Type :=
| Ret (r : R)
| Await (X : Type) (o : op X) (k : X -> prog R).

Arguments Ret {R} r.
Arguments Await {R X} o k.

Fixpoint bind {A B : Type} (m : prog A) (f : A -> prog B) : prog B :=
  match m with
  | Ret a => f a
  | Await o k => Await o (fun x => bind (k x) f)
  end.

Definition await {X : Type} (o : op X) : prog X := Await o Ret.

(** A promise that may reject: [inl] is the thrown error. *)
Definition promise (R : Type) : Type := prog (error + R).

Definition resolve {R : Type} (r : R) : promise R := Ret (inr r).
Definition throw {R : Type} (e : error) : promise R := Ret (inl e).

Definition bindE {A B : Type} (m : promise A) (f : A -> promise B) : promise B :=
  bind m (fun r => match r with
                   | inl e => Ret (inl e)
                   | inr a => f a
                   end).

(** [try { m } catch (err) { h err }] *)
Definition try_catch {R : Type} (m : promise R) (h : error -> prog R) : prog R :=
  bind m (fun r => match r with
                   | inl e => h e
                   | inr a => Ret a
                   end).

Declare Scope prog_scope.
Delimit Scope prog_scope with prog.
Notation "x <- m ;; k" := (bindE m (fun x => k))
  (at level 61, m at next level, right associativity) : prog_scope.

Local Open Scope prog_scope.

(** ** Mongoose documents *)

(** [new User({ username, password })]: the two given paths count as
    modified, [createdAt] takes its default [Date.now] (line 43) and
    [lastLogin] stays unset.  The [_id] is fixed when the document is
    inserted. *)
Definition new_User (e : Env) (u p : string) : Document :=
  mkDoc 0 (mkUser u p (now e) None) true [Pusername; Ppassword].

(** A document as a query returns it. *)
Definition hydrate (r : nat * UserDoc) : Document :=
  mkDoc (fst r) (snd r) false [].

Definition User_findOne (u : string) : promise (option Document) :=
  bind (await (FindOne u)) (fun r => resolve (option_map hydrate r)).

(** [this.password = h] and [user.lastLogin = t] *)
Definition assign_password (d : Document) (h : string) : Document :=
  mkDoc (_id d) (set_path (mkUser "" h 0 None) Ppassword (fields d))
        (isNew d) (Ppassword :: modifiedPaths d).

Definition assign_lastLogin (d : Document) (t : Z) : Document :=
  mkDoc (_id d) (set_path (mkUser "" "" 0 (Some t)) PlastLogin (fields d))
        (isNew d) (PlastLogin :: modifiedPaths d).

(** [userSchema.pre('save', ...)] (lines 49-58) *)
Definition pre_save (d : Document) : promise Document :=
  if negb (isModified d Ppassword) then resolve d
  else
    bind (await (GenSalt 10)) (fun salt =>
    bind (await (Hash (password (fields d)) salt)) (fun h =>
    resolve (assign_password d h))).

(** [doc.save()]: Mongoose's own validation hook runs first, then the
    schema's [pre('save')] hook, then the write: [insertOne] for a new
    document, [updateOne] with the modified paths for a loaded one. *)
Definition save (d : Document) : promise Document :=
  match validate (fields d) with
  | _ :: _ as errors => throw (ValidationError errors)
  | [] =>
      d' <- pre_save d ;;
      if isNew d' then
        bind (await (InsertOne (fields d'))) (fun r =>
        match r with
        | inl e => throw e
        | inr i => resolve (mkDoc i (fields d') false [])
        end)
      else
        bind (await (UpdateOne (_id d') (modifiedPaths d') (fields d'))) (fun _ =>
        resolve (mkDoc (_id d') (fields d') false []))
  end.

(** ** The routes *)

(** [app.post('/api/register', ...)] (lines 80-108, the same in both
    versions of the file) *)
Definition register (e : Env) (b : Body) : prog Response :=
  let uname := req_username b in
  let pword := req_password b in
  if falsy uname || falsy pword then
    Ret (failure 400 "Username and password are required")
  else
    try_catch
      (existingUser <- User_findOne (str uname) ;;
       match existingUser with
       | Some _ => resolve (failure 409 "Username already exists")
       | None =>
           newUser <- save (new_User e (str uname) (str pword)) ;;
           resolve (mkResponse 201 (JObject
             [("success", JBool true);
              ("message", JString "User registered successfully");
              ("user", JObject
                 [("username", JString (username (fields newUser)));
                  ("createdAt", JDate (createdAt (fields newUser)))])]))
       end)
      (fun _ => Ret (failure 500 "Internal server error during registration")).

(** The two versions of the file differ in the login response only:
    the later one adds a constant [token] member. *)
Inductive version : Type := Original | MockToken.

Definition token_member (v : version) : list (string * json) :=
  match v with
  | Original => []
  | MockToken => [("token", JString "mock-token-12345")]
  end.

(** [lastLogin] is always set when the login response is built. *)
Definition date_member (k : string) (t : option Z) : list (string * json) :=
  match t with
  | None => []
  | Some t => [(k, JDate t)]
  end.

(** [app.post('/api/login', ...)] (lines 111-144 and 257-291) *)
Definition login (v : version) (e : Env) (b : Body) : prog Response :=
  let uname := req_username b in
  let pword := req_password b in
  if falsy uname || falsy pword then
    Ret (failure 400 "Username and password are required")
  else
    try_catch
      (found <- User_findOne (str uname) ;;
       match found with
       | None => resolve (failure 401 "Invalid credentials")
       | Some user =>
           bind (await (Compare (str pword) (password (fields user)))) (fun isMatch =>
           if negb isMatch then resolve (failure 401 "Invalid credentials")
           else
             user' <- save (assign_lastLogin user (now e)) ;;
             resolve (mkResponse 200 (JObject
               ([("success", JBool true);
                 ("message", JString "Login successful")] ++
                token_member v ++
                [("user", JObject
                   ([("username", JString (username (fields user')))] ++
                    date_member "lastLogin" (lastLogin (fields user'))))]))))
       end)
      (fun _ => Ret (failure 500 "Internal server error during login")).

(** ** The routes on a body of any type *)

(** How Mongoose casts the value of [username] in a filter when it is
    an array or an object (operators such as [$ne], [$in] or [$gt]),
    and which usernames MongoDB matches with it, is not part of this
    repository: [inr q] is the filter, [inl] the error [findOne]
    rejects with. *)
Class Operators : Type := cast_filter : jsval -> error + (string -> bool).

(** [User.findOne({ username })] *)
Definition User_findOne_json `{Operators} (v : jsval) : promise (option Document) :=
  match castString v with
  | Some u => User_findOne u
  | None =>
      match cast_filter v with
      | inl err => throw err
      | inr q => bind (await (FindOneWhere q)) (fun r => resolve (option_map hydrate r))
      end
  end.

(** What validation reports for [new User({ username, password })]: a
    value that did not cast is reported for its path. *)
Definition validate_path (p : path) (check : string -> option validatorKind) (v : jsval) :
  list (path * validatorKind) :=
  tag p (match castString v with
         | Some s => check s
         | None => Some VCast
         end).

(** [new User({ username, password }).save()] (lines 93-94): the cast
    errors of the constructor are thrown by the validation of [save]. *)
Definition save_new (e : Env) (u p : jsval) : promise Document :=
  match castString u, castString p with
  | Some u', Some p' => save (new_User e u' p')
  | _, _ => throw (ValidationError (validate_path Pusername validate_username u ++
                                    validate_path Ppassword validate_password p))
  end.

(** [bcrypt.compare(data, hash)] rejects when [data] is not a string. *)
Definition compare_data (data : jsval) (h : string) : promise bool :=
  match data with
  | JSstring s => bind (await (Compare s h)) (fun isMatch => resolve isMatch)
  | _ => throw (Thrown "data and hash must be strings")
  end.

(** [app.post('/api/register', ...)] (lines 80-108 and 227-254) *)
Definition register_json `{Operators} (e : Env) (f : Fields) : prog Response :=
  let uname := field_username f in
  let pword := field_password f in
  if js_falsy uname || js_falsy pword then
    Ret (failure 400 "Username and password are required")
  else
    try_catch
      (existingUser <- User_findOne_json uname ;;
       match existingUser with
       | Some _ => resolve (failure 409 "Username already exists")
       | None =>
           newUser <- save_new e uname pword ;;
           resolve (mkResponse 201 (JObject
             [("success", JBool true);
              ("message", JString "User registered successfully");
              ("user", JObject
                 [("username", JString (username (fields newUser)));
                  ("createdAt", JDate (createdAt (fields newUser)))])]))
       end)
      (fun _ => Ret (failure 500 "Internal server error during registration")).

(** [app.post('/api/login', ...)] (lines 111-144 and 257-291) *)
Definition login_json `{Operators} (v : version) (e : Env) (f : Fields) : prog Response :=
  let uname := field_username f in
  let pword := field_password f in
  if js_falsy uname || js_falsy pword then
    Ret (failure 400 "Username and password are required")
  else
    try_catch
      (found <- User_findOne_json uname ;;
       match found with
       | None => resolve (failure 401 "Invalid credentials")
       | Some user =>
           isMatch <- compare_data pword (password (fields user)) ;;
           if negb isMatch then resolve (failure 401 "Invalid credentials")
           else
             user' <- save (assign_lastLogin user (now e)) ;;
             resolve (mkResponse 200 (JObject
               ([("success", JBool true);
                 ("message", JString "Login successful")] ++
                token_member v ++
                [("user", JObject
                   ([("username", JString (username (fields user')))] ++
                    date_member "lastLogin" (lastLogin (fields user'))))])))
       end)
      (fun _ => Ret (failure 500 "Internal server error during login")).

(** ** Running programs *)

Inductive opKind : Type :=
  KFindOne | KInsertOne | KUpdateOne | KGenSalt | KHash | KCompare.

Definition kind_of {X : Type} (o : op X) : opKind :=
  match o with
  | FindOne _ => KFindOne
  | InsertOne _ => KInsertOne
  | UpdateOne _ _ _ => KUpdateOne
  | GenSalt _ => KGenSalt
  | Hash _ _ => KHash
  | Compare _ _ => KCompare
  | FindOneWhere _ => KFindOne
  end.

Definition is_storage (k : opKind) : bool :=
  match k with
  | KFindOne | KInsertOne | KUpdateOne => true
  | _ => false
  end.

Definition is_write (k : opKind) : bool :=
  match k with
  | KInsertOne | KUpdateOne => true
  | _ => false
  end.

Definition is_hashing (k : opKind) : bool :=
  match k with
  | KGenSalt | KHash => true
  | _ => false
  end.

Section Running.
Context `{Blowfish}.

(** The answer to one awaited operation and the collection after it. *)
Definition perform (e : Env) {X : Type} (o : op X) (c : Collection) : X * Collection :=
  match o in op X return X * Collection with
  | FindOne u => (findOne u c, c)
  | InsertOne d => insertOne d c
  | UpdateOne i ps src => (tt, updateOne i ps src c)
  | GenSalt rounds => (genSalt rounds (entropy e), c)
  | Hash pw salt => (bcrypt_hash pw salt, c)
  | Compare pw h => (bcrypt_compare pw h, c)
  | FindOneWhere q => (findOneWhere q c, c)
  end.

Record Run (R : Type) : Type := mkRun {
  result : R;
  final : Collection;
  trace : list opKind
}.

(** One request served with nothing else in flight. *)
Fixpoint exec {R : Type} (e : Env) (m : prog R) (c : Collection) : Run R :=
  match m with
  | Ret r => mkRun r c []
  | Await o k =>
      let (x, c') := perform e o c in
      let r := exec e (k x) c' in
      mkRun (result r) (final r) (kind_of o :: trace r)
  end.

End Running.

(** ** Derived notions *)

(** Both validators of the schema accept. *)
Definition valid (u p : string) : bool :=
  match validate_username u, validate_password p with
  | None, None => true
  | _, _ => false
  end.

(** Username length in [3,30] and password length at least 6. *)
Definition in_bounds (u p : string) : bool :=
  ((3 <=? String.length u) && (String.length u <=? 30) && (6 <=? String.length p))%nat.

(** The 201 body of [register] (lines 96-103). *)
Definition created (e : Env) (u : string) : Response :=
  mkResponse 201 (JObject
    [("success", JBool true);
     ("message", JString "User registered successfully");
     ("user", JObject [("username", JString u); ("createdAt", JDate (now e))])]).

(** The document a successful registration inserts. *)
Definition stored_user `{Blowfish} (e : Env) (u p : string) : UserDoc :=
  mkUser u (bcrypt_hash p (genSalt 10 (entropy e))) (now e) None.

(** The 200 body of [login] (lines 132-139 and 278-286). *)
Definition logged_in (v : version) (e : Env) (u : string) : Response :=
  mkResponse 200 (JObject
    ([("success", JBool true); ("message", JString "Login successful")] ++
     token_member v ++
     [("user", JObject [("username", JString u); ("lastLogin", JDate (now e))])])).

(** What the write of a successful login does to the stored document. *)
Definition stamp (t : Z) (d : UserDoc) : UserDoc :=
  mkUser (username d) (password d) (createdAt d) (Some t).

(** What is left of [login_json] once [findOne] has resolved to a
    document (lines 124-139). *)
Definition login_found (v : version) (e : Env) (pword : jsval) (user : Document) :
  promise Response :=
  (isMatch <- compare_data pword (password (fields user)) ;;
   if negb isMatch then resolve (failure 401 "Invalid credentials")
   else
     user' <- save (assign_lastLogin user (now e)) ;;
     resolve (mkResponse 200 (JObject
       ([("success", JBool true);
         ("message", JString "Login successful")] ++
        token_member v ++
        [("user", JObject
           ([("username", JString (username (fields user')))] ++
            date_member "lastLogin" (lastLogin (fields user'))))]))))%prog.

(** ** Requests in flight together *)

(** A request being served: what it reads from its surroundings and
    what is left of its handler. *)
Definition task : Type := Env * prog Response.

(** Whether the handler has sent its response, whether that response
    is the 201, and the response itself. *)
Definition finished (t : task) : bool :=
  match snd t with
  | Ret _ => true
  | Await _ _ => false
  end.

Definition succeeded (t : task) : bool :=
  match snd t with
  | Ret r => (status r =? 201)%nat
  | Await _ _ => false
  end.

Definition response_of (t : task) : option Response :=
  match snd t with
  | Ret r => Some r
  | Await _ _ => None
  end.

Section Pool.
Context `{Blowfish}.

(** The event loop resumes one handler: its pending operation completes
    and the handler runs on to its next [await] or to its response. *)
Definition step_task (t : task) (c : Collection) : task * Collection :=
  match snd t with
  | Ret _ => (t, c)
  | Await o k => let (x, c') := perform (fst t) o c in ((fst t, k x), c')
  end.

(** Resume the [i]-th request of the pool. *)
Fixpoint step_pool (i : nat) (ts : list task) (c : Collection) : list task * Collection :=
  match ts, i with
  | [], _ => ([], c)
  | t :: ts', O => let (t', c') := step_task t c in (t' :: ts', c')
  | t :: ts', S i' => let (ts'', c') := step_pool i' ts' c in (t :: ts'', c')
  end.

(** The schedule names, step after step, the request that is resumed. *)
Fixpoint run_pool (sched : list nat) (ts : list task) (c : Collection) : list task * Collection :=
  match sched with
  | [] => (ts, c)
  | i :: sched' => let (ts', c') := step_pool i ts c in run_pool sched' ts' c'
  end.

End Pool.

(** The pool of [register] calls with the same credentials. *)
Definition registrations (envs : list Env) (u p : string) : list task :=
  map (fun e => (e, register e (mkBody (Some u) (Some p)))) envs.

(** The pool of [register] calls for the username [u], each with what
    it reads from its surroundings and a password of its own. *)
Definition registrations_as (u : string) (rs : list (Env * string)) : list task :=
  map (fun r => (fst r, register (fst r) (mkBody (Some u) (Some (snd r))))) rs.

(** What is left of a registration of [u] that can still succeed: it
    writes at most once, by [insertOne] of a document named [u], answers
    201 when that insertion is accepted, and answers something else only
    when the lookup found [u] or the insertion was refused. *)
Fixpoint registering (u : string) (m : prog Response) : Prop :=
  match m with
  | Ret _ => False
  | Await o k =>
      match o in op X return (X -> prog Response) -> Prop with
      | FindOne u' => fun k =>
          u' = u /\ registering u (k None) /\
          forall x, exists r, k (Some x) = Ret r /\ status r <> 201
      | InsertOne d => fun k =>
          username d = u /\
          (forall err, exists r, k (inl err) = Ret r /\ status r <> 201) /\
          (forall i, exists r, k (inr i) = Ret r /\ status r = 201)
      | GenSalt _ => fun k => forall x, registering u (k x)
      | Hash _ _ => fun k => forall x, registering u (k x)
      | UpdateOne _ _ _ => fun _ => False
      | Compare _ _ => fun _ => False
      | FindOneWhere _ => fun _ => False
      end k
  end.

(** How many stored documents carry the username [u]; how many
    requests of a pool have answered 201. *)
Definition count_user (u : string) (c : Collection) : nat :=
  length (filter (has_username u) c).

Definition successes (ts : list task) : nat := length (filter succeeded ts).

Definition won (t : task) : nat := if succeeded t then 1 else 0.

(** A request of the pool is either still [registering], or has answered
    201, or has answered something else, and then [u] is stored. *)
Definition task_ok (u : string) (c : Collection) (t : task) : Prop :=
  match snd t with
  | Ret r => status r = 201 \/ existsb (has_username u) c = true
  | Await _ _ => registering u (snd t)
  end.

(** ** Requests served one after the other *)

Inductive request : Type :=
| Register (b : Body)
| Login (b : Body).

(** A call: what the process reads while it serves it, and the request. *)
Definition call : Type := Env * request.

(** What it means for readings of [Date.now()] not to go back. *)
Fixpoint nondecreasing (l : list Z) : bool :=
  match l with
  | [] => true
  | a :: r =>
      match r with
      | [] => true
      | b :: _ => (a <=? b)%Z
      end && nondecreasing r
  end.

(** The [lastLogin] of the document [findOne] returns for [u]. *)
Definition lastLoginOf (u : string) (c : Collection) : option Z :=
  match findOne u c with
  | Some (_, d) => lastLogin d
  | None => None
  end.

(** Absent is below every date. *)
Definition le_opt (a b : option Z) : Prop :=
  match a, b with
  | None, _ => True
  | Some x, Some y => (x <= y)%Z
  | Some _, None => False
  end.

(** No stored [lastLogin] is after [t]. *)
Definition bounded (t : Z) (c : Collection) : Prop :=
  Forall (fun d => le_opt (lastLogin d) (Some t)) c.

Section History.
Context `{Blowfish}.
Variable v : version.

(** One call served alone, and a history of calls served one after the
    other, each on the collection the one before left. *)
Definition serve (x : call) (c : Collection) : Run Response :=
  match snd x with
  | Register b => exec (fst x) (register (fst x) b) c
  | Login b => exec (fst x) (login v (fst x) b) c
  end.

Definition serve_all (h : list call) (c : Collection) : Collection :=
  fold_left (fun c x => final (serve x c)) h c.

End History.

(** The same with bodies of any type. *)
Inductive request_json : Type :=
| RegisterJson (f : Fields)
| LoginJson (f : Fields).

Definition call_json : Type := Env * request_json.

(** The readings of [Date.now()] along a history. *)
Definition clock_json (h : list call_json) : list Z := map (fun x => now (fst x)) h.

(** What [User.findOne({ username })] resolves to, or rejects with. *)
Definition lookup `{Operators} (v : jsval) (c : Collection) : error + option (nat * UserDoc) :=
  match castString v with
  | Some u => inr (findOne u c)
  | None =>
      match cast_filter v with
      | inl err => inl err
      | inr q => inr (findOneWhere q c)
      end
  end.

Section HistoryJson.
Context `{Blowfish} `{Operators}.
Variable v : version.

Definition serve_json (x : call_json) (c : Collection) : Run Response :=
  match snd x with
  | RegisterJson f => exec (fst x) (register_json (fst x) f) c
  | LoginJson f => exec (fst x) (login_json v (fst x) f) c
  end.

Definition serve_all_json (h : list call_json) (c : Collection) : Collection :=
  fold_left (fun c x => final (serve_json x c)) h c.

End HistoryJson.

(** ** What every request leaves alone *)

(** The part of a document no route assigns after it is stored. *)
Definition core (d : UserDoc) : string * string * Z :=
  (username d, password d, createdAt d).

(** [c'] holds the documents of [c] at the same positions, with the
    same username, password and creation date, and possibly more
    documents after them. *)
Definition extends (c c' : Collection) : Prop :=
  exists more, map core c' = map core c ++ more.

(** A program whose updates assign [lastLogin] and nothing else,
    whatever its awaited operations answer. *)
Fixpoint harmless {R : Type} (m : prog R) : Prop :=
  match m with
  | Ret _ => True
  | Await o k =>
      match o in op X return (X -> prog R) -> Prop with
      | UpdateOne _ ps _ => fun k => ps = [PlastLogin] /\ forall x, harmless (k x)
      | FindOne _ => fun k => forall x, harmless (k x)
      | InsertOne _ => fun k => forall x, harmless (k x)
      | GenSalt _ => fun k => forall x, harmless (k x)
      | Hash _ _ => fun k => forall x, harmless (k x)
      | Compare _ _ => fun k => forall x, harmless (k x)
      | FindOneWhere _ => fun k => forall x, harmless (k x)
      end k
  end.

(** The handler a call runs, and the pool of the calls of a list. *)
Definition handler (v : version) (x : call) : prog Response :=
  match snd x with
  | Register b => register (fst x) b
  | Login b => login v (fst x) b
  end.

Definition in_flight (v : version) (calls : list call) : list task :=
  map (fun x => (fst x, handler v x)) calls.

(** A stored document as [register] writes it: a username and the
    bcrypt hash of a password that were within the bounds. *)
Definition well_formed `{Blowfish} (d : UserDoc) : Prop :=
  exists p rnd,
    in_bounds (username d) p = true /\ password d = bcrypt_hash p (genSalt 10 rnd).

(** Whether [u] is stored. *)
Definition stored (u : string) (c : Collection) : bool :=
  existsb (has_username u) c.

(** The pool of [register] calls of a list of credentials, each with
    what it reads from its surroundings. *)
Definition registrations_of (rs : list (Env * (string * string))) : list task :=
  map (fun r => (fst r, register (fst r) (mkBody (Some (fst (snd r))) (Some (snd (snd r)))))) rs.

(** A registration of [u] in flight next to registrations of other
    usernames: while it runs [u] is not stored, and once it has
    answered, it has answered 201 and [u] is stored. *)
Definition task_free (u : string) (c : Collection) (t : task) : Prop :=
  match snd t with
  | Ret r => status r = 201 /\ stored u c = true
  | Await _ _ => registering u (snd t) /\ stored u c = false
  end.

(** The document [findOne] returns for [u] carries the password [h]. *)
Definition holds (u h : string) (c : Collection) : Prop :=
  exists i d, findOne u c = Some (i, d) /\ password d = h.

(** ** The application of the later version *)

(** A request as the routes see it: method, path, the [Origin] header
    and the body the parsers have left in [req.body]. *)
Record Request : Type := mkRequest {
  req_method : string;
  req_path : string;
  req_origin : option string;
  req_parsed : Fields
}.

(** What a request gets: a JSON response of a handler, the empty 204 the
    cors middleware sends to a preflight, or an error handed to
    [next]. *)
Inductive reply : Type :=
| Sent (r : Response)
| Preflight
| Errored (message : string).

Definition allowedOrigins : list string := ["https://arts-wave.vercel.app"].

(** The [origin] callback of the cors options (lines 205-211): [inr]
    is [callback(null, true)], [inl] is [callback(new Error(...))]. *)
Definition cors_origin (origin : option string) : string + bool :=
  if falsy origin || existsb (String.eqb (str origin)) allowedOrigins
  then inr true
  else inl "Not allowed by CORS".

Section Application.
Context `{Operators}.
(** How Express matches the path of a route against the path of a
    request is not part of the repository. *)
Variable matches : string -> string -> bool.

(** The middleware and routes in the order lines 204-296 install them:
    cors, the two routes, the 404 handler. *)
Definition app (e : Env) (rq : Request) : prog reply :=
  match cors_origin (req_origin rq) with
  | inl err => Ret (Errored err)
  | inr _ =>
      if (req_method rq =? "OPTIONS")%string then Ret Preflight
      else if (req_method rq =? "POST")%string && matches "/api/register" (req_path rq)
      then bind (register_json e (req_parsed rq)) (fun r => Ret (Sent r))
      else if (req_method rq =? "POST")%string && matches "/api/login" (req_path rq)
      then bind (login_json MockToken e (req_parsed rq)) (fun r => Ret (Sent r))
      else Ret (Sent (failure 404 "Endpoint not found"))
  end.

End Application.

(** ** Concrete inputs *)

(** A stand-in for Blowfish, to run the model on concrete inputs: the
    digest scrambles password and salt, after a first character chosen
    to differ from the password's character at that position of the
    hash. *)
Definition mix (a : ascii) : ascii :=
  ascii_of_nat (65 + (nat_of_ascii a * 7 + 11) mod 26).

Fixpoint scramble (s : string) : string :=
  match s with
  | EmptyString => EmptyString
  | String a s' => String (mix a) (scramble s')
  end.

Definition flip (a : option ascii) : ascii :=
  match a with
  | Some "A"%char => "B"%char
  | _ => "A"%char
  end.

Definition toy : Blowfish := fun salt pw =>
  String (flip (get (String.length salt) pw)) (fit 30 (scramble (pw ++ salt)%string)).

(** Three moments, each with the salt characters drawn at it. *)
Definition at_1000 : Env := mkEnv 1000 "N9qo8uLOickgx2ZMRZoMye".
Definition at_2000 : Env := mkEnv 2000 "XaB3kq0Lz7RrT1uVwYc5de".
Definition at_3000 : Env := mkEnv 3000 "k1J8sPq2Lm4Zx6Cv9Bn0aa".

(** A request body with both fields. *)
Definition creds (u p : string) : Body := mkBody (Some u) (Some p).

(** The collection after alice has registered at 1000. *)
Definition alice_registered : Collection :=
  final (exec (H:=toy) at_1000 (register at_1000 (creds "alice" "secret1")) []).

(** A username of thirty characters. *)
Definition thirty : string := "abcdefghijklmnopqrstuvwxyz0123".

(** The status [register] answers with at 2000. *)
Definition register_status (c : Collection) (u p : string) : nat :=
  status (result (exec (H:=toy) at_2000 (register at_2000 (creds u p)) c)).

(** Alice registers, logs in, fails to log in, logs in again. *)
Definition alice_history : list call :=
  [(at_1000, Register (creds "alice" "secret1"));
   (at_2000, Login (creds "alice" "secret1"));
   (at_2000, Login (creds "alice" "wrong"));
   (at_3000, Login (creds "alice" "secret1"))].

(** Requests after alice has registered: she logs in, bob registers,
    alice tries to register again, bob logs in. *)
Definition later_calls : list call :=
  [(at_2000, Login (creds "alice" "secret1"));
   (at_2000, Register (creds "bob" "hunter22"));
   (at_3000, Register (creds "alice" "another1"));
   (at_3000, Login (creds "bob" "hunter22"))].

(** Alice registers three times at once, with three passwords. *)
Definition alice_three_times : list (Env * string) :=
  [(at_1000, "secret1"); (at_2000, "hunter22"); (at_3000, "another1")].

(** Alice and bob register at the same time. *)
Definition alice_and_bob : list (Env * (string * string)) :=
  [(at_1000, ("alice", "secret1")); (at_2000, ("bob", "secret1"))].

(** A stand-in for the operators of a filter, to run the model on
    concrete inputs.  It knows one operator: [{ $ne: s }] with a string
    [s] matches every username but [s].  Whatever else it is given it
    refuses, as Mongoose refuses an object without operators. *)
Definition only_ne : Operators := fun v =>
  match v with
  | JSobject [(k, JSstring s)] =>
      if k =? "$ne" then inr (fun u => negb (u =? s)) else inl (CastError Pusername)
  | _ => inl (CastError Pusername)
  end.

(** Alice's login as a request of the allowed origin. *)
Definition alice_login_request : Request :=
  mkRequest "POST" "/api/login" (Some "https://arts-wave.vercel.app")
            (of_body (creds "alice" "secret1")).

(** The same login from an origin that is not allowed. *)
Definition foreign_login_request : Request :=
  mkRequest "POST" "/api/login" (Some "http://localhost:3000")
            (of_body (creds "alice" "secret1")).

(** Bodies whose fields are not all strings: a number as password, and
    an operator in the place of the username. *)
Definition alice_1234567 : Fields := mkFields (JSstring "alice") (JSnumber "1234567").
Definition bob_1234567 : Fields := mkFields (JSstring "bob") (JSnumber "1234567").
Definition carol_1234567 : Fields := mkFields (JSstring "carol") (JSnumber "1234567").
Definition anyone_but_bob : Fields :=
  mkFields (JSobject [("$ne", JSstring "bob")]) (JSstring "secret1").

(** Alice registers and is refused twice: a wrong password, a number. *)
Definition alice_refused : list call_json :=
  [(at_1000, RegisterJson (of_body (creds "alice" "secret1")));
   (at_2000, LoginJson (of_body (creds "alice" "wrong")));
   (at_3000, LoginJson alice_1234567)].

(** Alice registers, logs in, is refused, and is logged in once more by
    a filter that matches her username. *)
Definition alice_history_json : list call_json :=
  [(at_1000, RegisterJson (of_body (creds "alice" "secret1")));
   (at_2000, LoginJson (of_body (creds "alice" "secret1")));
   (at_2000, LoginJson alice_1234567);
   (at_3000, LoginJson anyone_but_bob)].

(** Requests after a registration: alice logs in, bob registers, a
    filter is sent as username, bob logs in. *)
Definition later_calls_json : list call_json :=
  [(at_2000, LoginJson (of_body (creds "alice" "secret1")));
   (at_2000, RegisterJson (of_body (creds "bob" "hunter22")));
   (at_3000, RegisterJson anyone_but_bob);
   (at_3000, LoginJson (of_body (creds "bob" "hunter22")))].

(** Two logins of alice in flight together, the first reading the clock
    at 2000 and the second at 3000. *)
Definition two_logins : list call :=
  [(at_2000, Login (creds "alice" "secret1"));
   (at_3000, Login (creds "alice" "secret1"))].

(** What [login] and [register] answer on a body of any type. *)
Definition login_answer (v : version) (e : Env) (f : Fields) (c : Collection) : Response :=
  result (exec (H:=toy) e (login_json (H:=only_ne) v e f) c).


(** The collection after carol has registered at 1000 with the number
    1234567 as password. *)
Definition carol_registered : Collection :=
  final (exec (H:=toy) at_1000 (register_json (H:=only_ne) at_1000 carol_1234567) []).

(** The statuses of the requests of a pool that have been answered. *)
Definition statuses (ts : list task) : list (option nat) :=
  map (fun t => option_map status (response_of t)) ts.

(** ** Facts about the storage operations *)

Lemma find_from_None (u : string) (c : Collection) (i : nat) :
  find_from i u c = None <-> existsb (has_username u) c = false.
Proof.
  revert i. induction c as [|d c IH]; intros i; simpl.
  - tauto.
  - destruct (has_username u d); simpl.
    + split; discriminate.
    + apply IH.
Qed.

Lemma findOne_None (u : string) (c : Collection) :
  findOne u c = None <-> existsb (has_username u) c = false.
Proof. apply find_from_None. Qed.

Lemma find_from_Some (u : string) (c : Collection) (i j : nat) (d : UserDoc) :
  find_from i u c = Some (j, d) ->
  i <= j /\ nth_error c (j - i) = Some d /\ username d = u.
Proof.
  revert i. induction c as [|x c IH]; intros i; simpl; [discriminate|].
  destruct (has_username u x) eqn:E.
  - intros [= <- <-]. rewrite Nat.sub_diag. simpl.
    unfold has_username in E. apply String.eqb_eq in E. auto.
  - intros Hf. destruct (IH _ Hf) as (Hle & Hn & Hu).
    split; [lia|]. split; [|exact Hu].
    replace (j - i) with (S (j - S i)) by lia. exact Hn.
Qed.

Lemma findOne_Some (u : string) (c : Collection) (j : nat) (d : UserDoc) :
  findOne u c = Some (j, d) -> nth_error c j = Some d /\ username d = u.
Proof.
  intros Hf. destruct (find_from_Some _ _ _ Hf) as (_ & Hn & Hu).
  rewrite Nat.sub_0_r in Hn. auto.
Qed.

(** ** One request served alone: the paths through [register] *)

Section Sequential.
Context `{Blowfish}.

Lemma validate_valid (u p : string) (t : Z) (l : option Z) :
  valid u p = true -> validate (mkUser u p t l) = [].
Proof.
  unfold valid, validate. simpl.
  destruct (validate_username u), (validate_password p); simpl; congruence.
Qed.

Lemma validate_invalid (u p : string) (t : Z) (l : option Z) :
  valid u p = false -> exists x xs, validate (mkUser u p t l) = x :: xs.
Proof.
  unfold valid, validate. simpl.
  destruct (validate_username u), (validate_password p); simpl; try congruence; eauto.
Qed.

Lemma register_missing (e : Env) (b : Body) (c : Collection) :
  falsy (req_username b) || falsy (req_password b) = true ->
  exec e (register e b) c =
  mkRun (failure 400 "Username and password are required") c [].
Proof. intros Hf. unfold register. rewrite Hf. reflexivity. Qed.

Lemma register_taken (e : Env) (b : Body) (c : Collection) (x : nat * UserDoc) :
  falsy (req_username b) || falsy (req_password b) = false ->
  findOne (str (req_username b)) c = Some x ->
  exec e (register e b) c =
  mkRun (failure 409 "Username already exists") c [KFindOne].
Proof.
  intros Hf Hx. unfold register. rewrite Hf. cbn. rewrite Hx. reflexivity.
Qed.

Lemma register_invalid (e : Env) (b : Body) (c : Collection) :
  falsy (req_username b) || falsy (req_password b) = false ->
  findOne (str (req_username b)) c = None ->
  valid (str (req_username b)) (str (req_password b)) = false ->
  exec e (register e b) c =
  mkRun (failure 500 "Internal server error during registration") c [KFindOne].
Proof.
  intros Hf Hx Hv. unfold register. rewrite Hf. cbn. rewrite Hx. cbn.
  destruct (validate_invalid _ _ (now e) None Hv) as (y & ys & Hy).
  unfold save. cbn. rewrite Hy. reflexivity.
Qed.

Lemma register_created (e : Env) (b : Body) (c : Collection) :
  falsy (req_username b) || falsy (req_password b) = false ->
  findOne (str (req_username b)) c = None ->
  valid (str (req_username b)) (str (req_password b)) = true ->
  exec e (register e b) c =
  mkRun (created e (str (req_username b)))
        (c ++ [stored_user e (str (req_username b)) (str (req_password b))])
        [KFindOne; KGenSalt; KHash; KInsertOne].
Proof.
  intros Hf Hx Hv. unfold register. rewrite Hf. cbn. rewrite Hx. cbn.
  unfold save. cbn. rewrite (validate_valid _ _ (now e) None Hv). cbn.
  unfold insertOne. cbn. apply findOne_None in Hx. rewrite Hx. reflexivity.
Qed.

(** ** One request served alone: the paths through [login] *)

Lemma login_missing (v : version) (e : Env) (b : Body) (c : Collection) :
  falsy (req_username b) || falsy (req_password b) = true ->
  exec e (login v e b) c =
  mkRun (failure 400 "Username and password are required") c [].
Proof. intros Hf. unfold login. rewrite Hf. reflexivity. Qed.

Lemma login_unknown (v : version) (e : Env) (b : Body) (c : Collection) :
  falsy (req_username b) || falsy (req_password b) = false ->
  findOne (str (req_username b)) c = None ->
  exec e (login v e b) c = mkRun (failure 401 "Invalid credentials") c [KFindOne].
Proof.
  intros Hf Hx. unfold login. rewrite Hf. cbn. rewrite Hx. reflexivity.
Qed.

Lemma login_wrong_password (v : version) (e : Env) (b : Body) (c : Collection)
      (i : nat) (d : UserDoc) :
  falsy (req_username b) || falsy (req_password b) = false ->
  findOne (str (req_username b)) c = Some (i, d) ->
  bcrypt_compare (str (req_password b)) (password d) = false ->
  exec e (login v e b) c =
  mkRun (failure 401 "Invalid credentials") c [KFindOne; KCompare].
Proof.
  intros Hf Hx Hc. unfold login. rewrite Hf. cbn. rewrite Hx. cbn.
  rewrite Hc. reflexivity.
Qed.

Lemma login_save_rejected (v : version) (e : Env) (b : Body) (c : Collection)
      (i : nat) (d : UserDoc) :
  falsy (req_username b) || falsy (req_password b) = false ->
  findOne (str (req_username b)) c = Some (i, d) ->
  bcrypt_compare (str (req_password b)) (password d) = true ->
  valid (username d) (password d) = false ->
  exec e (login v e b) c =
  mkRun (failure 500 "Internal server error during login") c [KFindOne; KCompare].
Proof.
  intros Hf Hx Hc Hv. unfold login. rewrite Hf. cbn. rewrite Hx. cbn.
  rewrite Hc. cbn.
  destruct (validate_invalid _ _ (createdAt d) (Some (now e)) Hv) as (y & ys & Hy).
  unfold save. cbn. rewrite Hy. reflexivity.
Qed.

Lemma login_accepted (v : version) (e : Env) (b : Body) (c : Collection)
      (i : nat) (d : UserDoc) :
  falsy (req_username b) || falsy (req_password b) = false ->
  findOne (str (req_username b)) c = Some (i, d) ->
  bcrypt_compare (str (req_password b)) (password d) = true ->
  valid (username d) (password d) = true ->
  exec e (login v e b) c =
  mkRun (logged_in v e (str (req_username b))) (update_at i (stamp (now e)) c)
        [KFindOne; KCompare; KUpdateOne].
Proof.
  intros Hf Hx Hc Hv. unfold login. rewrite Hf. cbn. rewrite Hx. cbn.
  rewrite Hc. cbn.
  unfold save. cbn. rewrite (validate_valid _ _ (createdAt d) (Some (now e)) Hv). cbn.
  destruct (findOne_Some _ _ Hx) as (_ & ->).
  reflexivity.
Qed.

(** Every login call takes one of the five paths. *)
Lemma login_cases (v : version) (e : Env) (b : Body) (c : Collection) :
  let r := exec e (login v e b) c in
  (status (result r) <> 200 /\ final r = c /\ existsb is_write (trace r) = false /\
   exists code msg, result r = failure code msg) \/
  (exists i d,
     findOne (str (req_username b)) c = Some (i, d) /\
     bcrypt_compare (str (req_password b)) (password d) = true /\
     r = mkRun (logged_in v e (str (req_username b))) (update_at i (stamp (now e)) c)
               [KFindOne; KCompare; KUpdateOne]).
Proof.
  cbv zeta.
  destruct (falsy (req_username b) || falsy (req_password b)) eqn:Hf.
  { left. rewrite (login_missing v e b c Hf). cbn. repeat split; eauto. discriminate. }
  destruct (findOne (str (req_username b)) c) as [[i d]|] eqn:Hx.
  2:{ left. rewrite (login_unknown v e b c Hf Hx). cbn. repeat split; eauto. discriminate. }
  destruct (bcrypt_compare (str (req_password b)) (password d)) eqn:Hc.
  2:{ left. rewrite (login_wrong_password v e b c Hf Hx Hc). cbn.
      repeat split; eauto. discriminate. }
  destruct (valid (username d) (password d)) eqn:Hv.
  2:{ left. rewrite (login_save_rejected v e b c Hf Hx Hc Hv). cbn.
      repeat split; eauto. discriminate. }
  right. exists i, d. rewrite (login_accepted v e b c Hf Hx Hc Hv). auto.
Qed.

(** Every register call takes one of the four paths. *)
Lemma register_cases (e : Env) (b : Body) (c : Collection) :
  let r := exec e (register e b) c in
  (status (result r) <> 201 /\ final r = c /\
   existsb is_write (trace r) = false /\ existsb is_hashing (trace r) = false /\
   exists code msg, result r = failure code msg) \/
  (findOne (str (req_username b)) c = None /\
   valid (str (req_username b)) (str (req_password b)) = true /\
   r = mkRun (created e (str (req_username b)))
             (c ++ [stored_user e (str (req_username b)) (str (req_password b))])
             [KFindOne; KGenSalt; KHash; KInsertOne]).
Proof.
  cbv zeta.
  destruct (falsy (req_username b) || falsy (req_password b)) eqn:Hf.
  { left. rewrite (register_missing e b c Hf). cbn. repeat split; eauto. discriminate. }
  destruct (findOne (str (req_username b)) c) as [x|] eqn:Hx.
  { left. rewrite (register_taken e b c Hf Hx). cbn. repeat split; eauto. discriminate. }
  destruct (valid (str (req_username b)) (str (req_password b))) eqn:Hv.
  2:{ left. rewrite (register_invalid e b c Hf Hx Hv). cbn.
      repeat split; eauto. discriminate. }
  right. rewrite (register_created e b c Hf Hx Hv). auto.
Qed.

End Sequential.

(** ** The bounds of the schema *)

Lemma valid_in_bounds (u p : string) : valid u p = in_bounds u p.
Proof.
  unfold valid, in_bounds, validate_username, validate_password.
  rewrite !Nat.leb_antisym.
  destruct (String.eqb_spec u "") as [->|Hu]; [reflexivity|].
  destruct (String.eqb_spec p "") as [->|Hp].
  - simpl. rewrite andb_false_r.
    destruct (String.length u <? 3)%nat; [reflexivity|].
    destruct (30 <? String.length u)%nat; reflexivity.
  - destruct (String.length u <? 3)%nat; [reflexivity|].
    destruct (30 <? String.length u)%nat; [reflexivity|].
    destruct (String.length p <? 6)%nat; reflexivity.
Qed.

Lemma falsy_out_of_bounds (b : Body) :
  falsy (req_username b) || falsy (req_password b) = true ->
  in_bounds (str (req_username b)) (str (req_password b)) = false.
Proof.
  unfold in_bounds. destruct b as [[u|] [p|]]; simpl; try reflexivity.
  - intros Hf. apply orb_true_iff in Hf as [Hf|Hf];
      apply String.eqb_eq in Hf; subst; simpl; [reflexivity|].
    apply andb_false_r.
  - intros _. apply andb_false_r.
Qed.

Lemma update_at_map {A : Type} (g : UserDoc -> A) (f : UserDoc -> UserDoc)
      (i : nat) (c : Collection) :
  (forall d, g (f d) = g d) -> map g (update_at i f c) = map g c.
Proof.
  intros Hg. revert i. induction c as [|d c IH]; intros [|i]; simpl; try reflexivity.
  - now rewrite Hg.
  - now rewrite IH.
Qed.

Lemma update_at_other (f : UserDoc -> UserDoc) (i j : nat) (c : Collection) :
  j <> i -> nth_error (update_at i f c) j = nth_error c j.
Proof.
  revert i j. induction c as [|d c IH]; intros [|i] [|j] Hij; simpl;
    try reflexivity; try congruence.
  apply IH. congruence.
Qed.

Lemma update_at_same (f : UserDoc -> UserDoc) (i : nat) (c : Collection) (d : UserDoc) :
  nth_error c i = Some d -> nth_error (update_at i f c) i = Some (f d).
Proof.
  revert i. induction c as [|x c IH]; intros [|i]; simpl; try discriminate.
  - now intros [= ->].
  - apply IH.
Qed.

(** ** Claims about one request served alone *)

Section Claims.
Context `{Blowfish}.

(** C1, as the code has it, for a register call served alone.  A call
    with a missing or empty field is answered 400 and stores nothing.
    For a call with both fields non-empty and a username not yet
    stored: when the username length is in [3,30] and the password
    length is at least 6 the call succeeds with 201 and the user is
    stored; otherwise the schema validation of [save] rejects it, the
    response is a failure and nothing is stored.  Inside the bounds the
    answer is 201, or 409 when the username is stored. *)
Theorem register_length_validation (e : Env) (b : Body) (c : Collection) :
  let u := str (req_username b) in
  let p := str (req_password b) in
  let r := exec e (register e b) c in
  (falsy (req_username b) || falsy (req_password b) = true ->
   result r = failure 400 "Username and password are required" /\ final r = c) /\
  (falsy (req_username b) || falsy (req_password b) = false ->
   findOne u c = None ->
   if in_bounds u p
   then result r = created e u /\ final r = c ++ [stored_user e u p]
   else status (result r) <> 201 /\
        (exists code msg, result r = failure code msg) /\
        final r = c) /\
  (in_bounds u p = true ->
   (findOne u c = None -> status (result r) = 201) /\
   (findOne u c <> None -> status (result r) = 409)).
Proof.
  cbv zeta. split; [|split].
  - intros Hf. now rewrite (register_missing e b c Hf).
  - intros Hf Hx. rewrite <- valid_in_bounds.
    destruct (valid (str (req_username b)) (str (req_password b))) eqn:Hv.
    + rewrite (register_created e b c Hf Hx Hv). auto.
    + rewrite (register_invalid e b c Hf Hx Hv). simpl.
      repeat split; eauto. discriminate.
  - intros Hb.
    destruct (falsy (req_username b) || falsy (req_password b)) eqn:Hf.
    { rewrite (falsy_out_of_bounds b Hf) in Hb. discriminate. }
    rewrite <- valid_in_bounds in Hb.
    destruct (findOne (str (req_username b)) c) eqn:Hx.
    + split; [discriminate|]. intros _. now rewrite (register_taken e b c Hf Hx).
    + split; [|congruence]. intros _. now rewrite (register_created e b c Hf Hx Hb).
Qed.

(** With passwords that are strings, a login with a stored username
    and a wrong password and a login with a username that is not
    stored get the same response: status 401 and the message "Invalid
    credentials". *)
Lemma string_login_failures_alike
        (v1 v2 : version) (e1 e2 : Env) (c : Collection)
        (u1 p1 u2 p2 : string) (i : nat) (d : UserDoc) :
  u1 <> "" -> p1 <> "" -> u2 <> "" -> p2 <> "" ->
  findOne u1 c = Some (i, d) ->
  bcrypt_compare p1 (password d) = false ->
  findOne u2 c = None ->
  let wrong := result (exec e1 (login v1 e1 (mkBody (Some u1) (Some p1))) c) in
  let unknown := result (exec e2 (login v2 e2 (mkBody (Some u2) (Some p2))) c) in
  wrong = unknown /\ unknown = failure 401 "Invalid credentials".
Proof.
  intros Hu1 Hp1 Hu2 Hp2 Hx Hc Hn. cbv zeta.
  apply String.eqb_neq in Hu1, Hp1, Hu2, Hp2.
  rewrite (@login_wrong_password _ v1 e1 (mkBody (Some u1) (Some p1)) c i d);
    [| simpl; now rewrite Hu1, Hp1 | exact Hx | exact Hc ].
  rewrite (@login_unknown _ v2 e2 (mkBody (Some u2) (Some p2)) c);
    [| simpl; now rewrite Hu2, Hp2 | exact Hn ].
  split; reflexivity.
Qed.

(** C7.  A login that succeeds rewrites one stored document, the one
    [findOne] returned, and in it only [lastLogin]: the usernames, the
    password hashes and the creation dates of the collection are the
    same before and after, and every other document is untouched. *)
Theorem login_changes_only_lastLogin (v : version) (e : Env) (b : Body) (c : Collection) :
  let r := exec e (login v e b) c in
  status (result r) = 200 ->
  map username (final r) = map username c /\
  map password (final r) = map password c /\
  map createdAt (final r) = map createdAt c /\
  exists i d,
    findOne (str (req_username b)) c = Some (i, d) /\
    nth_error (final r) i = Some (stamp (now e) d) /\
    forall j, j <> i -> nth_error (final r) j = nth_error c j.
Proof.
  cbv zeta. intros Hs.
  destruct (login_cases v e b c) as [(Hn & _)|(i & d & Hx & _ & Hr)]; [contradiction|].
  rewrite Hr. simpl.
  repeat split; try (apply update_at_map; reflexivity).
  exists i, d. split; [exact Hx|]. split.
  - apply update_at_same. apply (findOne_Some _ _ Hx).
  - intros j Hj. now apply update_at_other.
Qed.


(** C9, as the code has it.  A register call whose username length is
    outside [3,30] or whose password length is below 6 (a missing or
    empty field included) hashes nothing and writes nothing: the
    collection is as before and the call does not succeed.  With a
    missing or empty field no operation runs at all; otherwise the
    lookup of the username has run, and nothing else. *)
Theorem invalid_register_hashes_and_writes_nothing (e : Env) (b : Body) (c : Collection) :
  let r := exec e (register e b) c in
  in_bounds (str (req_username b)) (str (req_password b)) = false ->
  status (result r) <> 201 /\ final r = c /\
  existsb is_hashing (trace r) = false /\ existsb is_write (trace r) = false /\
  trace r = if falsy (req_username b) || falsy (req_password b) then [] else [KFindOne].
Proof.
  cbv zeta. intros Hb. rewrite <- valid_in_bounds in Hb.
  destruct (falsy (req_username b) || falsy (req_password b)) eqn:Hf.
  { rewrite (register_missing e b c Hf). simpl. repeat split; auto. discriminate. }
  destruct (findOne (str (req_username b)) c) as [x|] eqn:Hx.
  - rewrite (register_taken e b c Hf Hx). simpl. repeat split; auto. discriminate.
  - rewrite (register_invalid e b c Hf Hx Hb). simpl. repeat split; auto. discriminate.
Qed.

(** C10.  A login call that fails, and in particular one with a missing
    or empty field, with a username that is not stored, or with a
    password [bcrypt.compare] rejects, does not answer 200, leaves the
    collection as it was and performs no write. *)
Theorem failed_login_leaves_collection (v : version) (e : Env) (b : Body) (c : Collection) :
  let r := exec e (login v e b) c in
  status (result r) <> 200 \/
  falsy (req_username b) || falsy (req_password b) = true \/
  findOne (str (req_username b)) c = None \/
  (exists i d, findOne (str (req_username b)) c = Some (i, d) /\
               bcrypt_compare (str (req_password b)) (password d) = false) ->
  status (result r) <> 200 /\ final r = c /\ existsb is_write (trace r) = false.
Proof.
  cbv zeta. intros Hfail.
  destruct (login_cases v e b c) as [(Hs & Hc & Hw & _)|(i & d & Hx & Hm & Hr)]; [auto|].
  exfalso. destruct Hfail as [Hs|[Hf|[Hn|(j & y & Hy & Hm')]]].
  - rewrite Hr in Hs. simpl in Hs. contradiction.
  - rewrite (login_missing v e b c Hf) in Hr. discriminate.
  - congruence.
  - rewrite Hx in Hy. injection Hy as <- <-. congruence.
Qed.

End Claims.

(** ** The shape of a registration in flight *)

Lemma register_registering (e : Env) (u p : string) :
  in_bounds u p = true -> registering u (register e (mkBody (Some u) (Some p))).
Proof.
  intros Hb. rewrite <- valid_in_bounds in Hb.
  assert (Hu : (u =? "")%string = false).
  { destruct (String.eqb_spec u ""); [subst; discriminate|reflexivity]. }
  assert (Hp : (p =? "")%string = false).
  { destruct (String.eqb_spec p ""); [|reflexivity]. subst.
    unfold valid in Hb. destruct (validate_username u); discriminate. }
  unfold register. cbn. rewrite Hu, Hp. cbn.
  split; [reflexivity|]. split.
  - unfold save. cbn. rewrite (validate_valid _ _ (now e) None Hb). cbn.
    intros salt h. repeat split.
    + intros err. eexists. split; [reflexivity|discriminate].
    + intros i. eexists. split; reflexivity.
  - intros x. eexists. split; [reflexivity|discriminate].
Qed.

(** ** One winner among concurrent registrations *)

Lemma existsb_count (u : string) (c : Collection) :
  existsb (has_username u) c = false -> count_user u c = 0.
Proof.
  unfold count_user. induction c as [|d c IH]; simpl; [reflexivity|].
  destruct (has_username u d); simpl; [discriminate|exact IH].
Qed.

Lemma count_existsb (u : string) (c : Collection) :
  existsb (has_username u) c = true -> 1 <= count_user u c.
Proof.
  unfold count_user. induction c as [|d c IH]; simpl; [discriminate|].
  destruct (has_username u d); simpl; [lia|exact IH].
Qed.

Lemma count_user_snoc (u : string) (c : Collection) (d : UserDoc) :
  username d = u -> count_user u (c ++ [d]) = S (count_user u c).
Proof.
  intros Hd. unfold count_user. rewrite filter_app, length_app. simpl.
  unfold has_username at 2. rewrite Hd, String.eqb_refl. simpl. lia.
Qed.

Lemma registering_ok (u : string) (c : Collection) (e : Env) (m : prog Response) :
  registering u m -> task_ok u c (e, m) /\ won (e, m) = 0.
Proof. destruct m; simpl; [contradiction|]. unfold task_ok, won. simpl. auto. Qed.

Lemma answered_ok (u : string) (c : Collection) (e : Env) (r : Response) :
  status r <> 201 -> existsb (has_username u) c = true ->
  task_ok u c (e, Ret r) /\ won (e, Ret r) = 0.
Proof.
  intros Hs Hc. unfold task_ok, won, succeeded. simpl. split; [auto|].
  destruct (Nat.eqb_spec (status r) 201); [contradiction|reflexivity].
Qed.

Section OneWinner.
Context `{Blowfish}.
Variable u : string.

Lemma step_task_ok (t t' : task) (c c' : Collection) :
  step_task t c = (t', c') ->
  task_ok u c t ->
  task_ok u c' t' /\
  (existsb (has_username u) c = true -> existsb (has_username u) c' = true) /\
  count_user u c' + won t = count_user u c + won t' /\
  (count_user u c <= 1 -> count_user u c' <= 1).
Proof.
  destruct t as [e m]. unfold step_task. simpl.
  destruct m as [r|X o k].
  { intros [= <- <-] Hok. auto. }
  unfold task_ok at 1. simpl.
  destruct o as [u'|d|i ps src|n|pw salt|pw h|q]; simpl;
    try (intros _ []; fail).
  - (* findOne *)
    intros [= <- <-] (-> & Hnone & Hsome).
    destruct (findOne u c) as [x|] eqn:Hx.
    + destruct (Hsome x) as (r & -> & Hr).
      assert (Hc : existsb (has_username u) c = true).
      { destruct (existsb (has_username u) c) eqn:E; [reflexivity|].
        apply findOne_None in E. congruence. }
      destruct (@answered_ok u c e r Hr Hc) as (Hok & ->).
      repeat split; auto.
    + destruct (@registering_ok u c e _ Hnone) as (Hok & ->).
      repeat split; auto.
  - (* insertOne *)
    intros Hstep (Hd & Hrefused & Haccepted). unfold insertOne in Hstep.
    rewrite Hd in Hstep.
    destruct (existsb (has_username u) c) eqn:Hc.
    + injection Hstep as <- <-.
      destruct (Hrefused DuplicateKeyError) as (r & -> & Hr).
      destruct (@answered_ok u c e r Hr Hc) as (Hok & ->).
      repeat split; auto.
    + injection Hstep as <- <-.
      destruct (Haccepted (length c)) as (r & -> & Hr).
      rewrite (@count_user_snoc u c d Hd), (@existsb_count u c Hc).
      unfold task_ok, won, succeeded. simpl. rewrite Hr. simpl.
      repeat split; auto.
      rewrite existsb_app. simpl. unfold has_username at 2.
      rewrite Hd, String.eqb_refl. intros _. now rewrite orb_true_r.
  - (* genSalt *)
    intros [= <- <-] Hk.
    destruct (@registering_ok u c e _ (Hk (genSalt n (entropy e)))) as (Hok & ->).
    repeat split; auto.
  - (* hash *)
    intros [= <- <-] Hk.
    destruct (@registering_ok u c e _ (Hk (bcrypt_hash pw salt))) as (Hok & ->).
    repeat split; auto.
Qed.

Lemma task_ok_mono (c c' : Collection) (t : task) :
  (existsb (has_username u) c = true -> existsb (has_username u) c' = true) ->
  task_ok u c t -> task_ok u c' t.
Proof.
  unfold task_ok. destruct (snd t); [|auto]. intros Hm [Hs|Hc]; auto.
Qed.

Lemma step_pool_ok (i : nat) (ts ts' : list task) (c c' : Collection) :
  step_pool i ts c = (ts', c') ->
  Forall (task_ok u c) ts ->
  Forall (task_ok u c') ts' /\
  (existsb (has_username u) c = true -> existsb (has_username u) c' = true) /\
  count_user u c' + successes ts = count_user u c + successes ts' /\
  (count_user u c <= 1 -> count_user u c' <= 1) /\
  length ts' = length ts.
Proof.
  revert i ts' c'. induction ts as [|t ts IH]; intros i ts' c' Hstep Hall.
  { destruct i; injection Hstep as <- <-; repeat split; auto. }
  inversion Hall as [|? ? Ht Hts]; subst.
  destruct i as [|i]; simpl in Hstep.
  - destruct (step_task t c) as [t1 c1] eqn:Ht1. injection Hstep as <- <-.
    destruct (@step_task_ok _ _ _ _ Ht1 Ht) as (Hok & Hm & Hcnt & Hle).
    repeat split; auto.
    + constructor; [exact Hok|].
      eapply Forall_impl; [|exact Hts]. intros a. now apply task_ok_mono.
    + unfold successes, won in *. simpl.
      destruct (succeeded t), (succeeded t1); simpl; lia.
  - destruct (step_pool i ts c) as [ts1 c1] eqn:Hts1. injection Hstep as <- <-.
    destruct (IH _ _ _ Hts1 Hts) as (Hok & Hm & Hcnt & Hle & Hlen).
    repeat split; auto.
    + constructor; [|exact Hok]. now apply (task_ok_mono c).
    + unfold successes in *. simpl. destruct (succeeded t); simpl; lia.
    + simpl. now rewrite Hlen.
Qed.

Lemma run_pool_ok (sched : list nat) (ts : list task) (c : Collection) :
  Forall (task_ok u c) ts ->
  successes ts = count_user u c ->
  count_user u c <= 1 ->
  let r := run_pool sched ts c in
  Forall (task_ok u (snd r)) (fst r) /\
  successes (fst r) = count_user u (snd r) /\
  count_user u (snd r) <= 1 /\
  length (fst r) = length ts.
Proof.
  revert ts c. induction sched as [|i sched IH]; intros ts c Hall Hcnt Hle; simpl.
  { auto. }
  destruct (step_pool i ts c) as [ts1 c1] eqn:Hstep.
  destruct (@step_pool_ok _ _ _ _ _ Hstep Hall) as (Hok & _ & Hcnt1 & Hle1 & Hlen).
  destruct (IH ts1 c1 Hok ltac:(lia) (Hle1 Hle)) as (A & B & C & D).
  repeat split; auto. now rewrite D.
Qed.

End OneWinner.

Section Schedules.
Context `{Blowfish}.

Lemma run_pool_app (s1 s2 : list nat) (ts : list task) (c : Collection) :
  run_pool (s1 ++ s2) ts c =
  run_pool s2 (fst (run_pool s1 ts c)) (snd (run_pool s1 ts c)).
Proof.
  revert ts c. induction s1 as [|i s1 IH]; intros ts c; simpl; [reflexivity|].
  destruct (step_pool i ts c) as [ts1 c1]. apply IH.
Qed.

Lemma run_pool_shift (s : list nat) (t : task) (ts : list task) (c : Collection) :
  run_pool (map S s) (t :: ts) c =
  (t :: fst (run_pool s ts c), snd (run_pool s ts c)).
Proof.
  revert ts c. induction s as [|i s IH]; intros ts c; simpl; [reflexivity|].
  destruct (step_pool i ts c) as [ts1 c1]. apply IH.
Qed.

(** A handler resumed often enough reaches its response, whatever the
    collection holds. *)
Lemma task_can_finish (e : Env) (m : prog Response) (ts : list task) (c : Collection) :
  exists n t',
    fst (run_pool (repeat 0 n) ((e, m) :: ts) c) = t' :: ts /\ finished t' = true.
Proof.
  revert c. induction m as [r|X o k IH]; intros c.
  - exists 0, (e, Ret r). split; reflexivity.
  - destruct (perform e o c) as [x c1] eqn:Hp.
    destruct (IH x c1) as (n & t' & Hrun & Hfin).
    exists (S n), t'. simpl. unfold step_task. simpl. rewrite Hp. auto.
Qed.

(** Every pool has a schedule that serves all its requests. *)
Lemma pool_can_finish (ts : list task) (c : Collection) :
  exists sched, forallb finished (fst (run_pool sched ts c)) = true.
Proof.
  revert c. induction ts as [|[e m] ts IH]; intros c.
  - exists []. reflexivity.
  - destruct (task_can_finish e m ts c) as (n & t' & Hrun & Hfin).
    destruct (IH (snd (run_pool (repeat 0 n) ((e, m) :: ts) c))) as (s & Hs).
    exists (repeat 0 n ++ map S s).
    rewrite run_pool_app. unfold task in *. rewrite Hrun, run_pool_shift. simpl.
    unfold task in *. now rewrite Hfin, Hs.
Qed.

Lemma registrations_as_start (u : string) (rs : list (Env * string)) (c : Collection) :
  Forall (fun r => in_bounds u (snd r) = true) rs ->
  Forall (task_ok u c) (registrations_as u rs) /\ successes (registrations_as u rs) = 0.
Proof.
  unfold registrations_as, successes.
  induction rs as [|[e p] rs IH]; intros Hb; simpl; [auto|].
  inversion Hb as [|? ? Hp Hrs]; subst. simpl in Hp.
  destruct (IH Hrs) as (IH1 & IH2).
  destruct (@registering_ok u c e _ (register_registering e u p Hp)) as (Hok & Hw).
  unfold won in Hw. simpl. destruct (succeeded _); [discriminate|]. auto.
Qed.

(** C3, as the code has it.  The handler looks the username up and then
    saves, and the insertion of [save] is checked by the unique index
    in the same storage operation.  So when any number of registrations
    of the same username, each with a password of its own, within the
    bounds and for a username not yet stored, are in flight together,
    then however their awaited operations interleave, once all have
    answered exactly one has answered 201 and exactly one document with
    that username is stored; and some interleaving does serve them
    all. *)
Theorem concurrent_registrations_one_winner
        (u : string) (rs : list (Env * string)) (c : Collection) :
  rs <> [] ->
  Forall (fun r => in_bounds u (snd r) = true) rs ->
  findOne u c = None ->
  (forall sched,
     let r := run_pool sched (registrations_as u rs) c in
     forallb finished (fst r) = true ->
     successes (fst r) = 1 /\ count_user u (snd r) = 1) /\
  (exists sched,
     forallb finished (fst (run_pool sched (registrations_as u rs) c)) = true).
Proof.
  intros Hne Hb Hx. split; [|apply pool_can_finish].
  intros sched r Hfin. subst r.
  destruct (@registrations_as_start u rs c Hb) as (Hall & Hzero).
  apply findOne_None in Hx. pose proof (existsb_count _ _ Hx) as Hc0.
  destruct (@run_pool_ok _ u sched _ c Hall ltac:(lia) ltac:(lia))
    as (Hok & Hcnt & Hle & Hlen).
  destruct (fst (run_pool sched (registrations_as u rs) c)) as [|t ts] eqn:Hts.
  { destruct rs; [congruence|discriminate]. }
  simpl in Hfin. apply andb_true_iff in Hfin as (Ht & _).
  inversion Hok as [|? ? Hokt _]; subst.
  assert (1 <= count_user u (snd (run_pool sched (registrations_as u rs) c))).
  { unfold task_ok in Hokt. unfold finished in Ht.
    destruct (snd t) as [r|] eqn:Hr; [|discriminate].
    destruct Hokt as [Hs|Hc]; [|now apply count_existsb].
    rewrite <- Hcnt. unfold successes. simpl. unfold succeeded at 1.
    rewrite Hr, Hs. simpl. lia. }
  lia.
Qed.

(** Served one after the other, the second of two registrations of the
    same username is answered 409. *)
Lemma second_register_conflicts (e1 e2 : Env) (b : Body) (p' : string) (c : Collection) :
  status (result (exec e1 (register e1 b) c)) = 201 ->
  p' <> "" ->
  result (exec e2 (register e2 (mkBody (req_username b) (Some p')))
               (final (exec e1 (register e1 b) c))) =
  failure 409 "Username already exists".
Proof.
  intros Hs Hp.
  destruct (register_cases e1 b c) as [(Hn & _)|(Hx & Hv & Hr)]; [contradiction|].
  rewrite Hr. simpl.
  assert (Hu : falsy (req_username b) = false).
  { destruct (falsy (req_username b)) eqn:E; [|reflexivity].
    rewrite register_missing in Hs by (now rewrite E). discriminate. }
  destruct (findOne (str (req_username b))
              (c ++ [stored_user e1 (str (req_username b)) (str (req_password b))]))
    as [x|] eqn:Hf.
  - rewrite (@register_taken _ e2 (mkBody (req_username b) (Some p')) _ x);
      [reflexivity| |exact Hf].
    simpl. rewrite Hu. simpl. now apply String.eqb_neq.
  - apply findOne_None in Hf. rewrite existsb_app in Hf. simpl in Hf.
    unfold has_username at 2 in Hf. simpl in Hf.
    rewrite String.eqb_refl, orb_true_r in Hf. discriminate.
Qed.

End Schedules.

(** C4 at two registrations of alice in flight together, both lookups
    ahead of both insertions: the first is answered 201, and the second,
    refused by the unique index, is answered 500 and not 409. *)
Theorem concurrent_duplicate_answered_500 `{Blowfish} (e1 e2 : Env) :
  map response_of
      (fst (run_pool [0; 1; 0; 0; 0; 1; 1; 1]
                     (registrations [e1; e2] "alice" "secret1") [])) =
  [Some (created e1 "alice");
   Some (failure 500 "Internal server error during registration")].
Proof. reflexivity. Qed.

(** ** Facts about histories *)

Lemma le_opt_refl (a : option Z) : le_opt a a.
Proof. destruct a; simpl; [lia|exact I]. Qed.

Lemma le_opt_trans (a b c : option Z) : le_opt a b -> le_opt b c -> le_opt a c.
Proof. destruct a, b, c; simpl; try tauto; lia. Qed.

Lemma nondecreasing_app (l1 l2 : list Z) :
  nondecreasing (l1 ++ l2) = true -> nondecreasing l1 = true /\ nondecreasing l2 = true.
Proof.
  induction l1 as [|a l1 IH]; simpl; [auto|].
  intros Hn. apply andb_true_iff in Hn as (Ha & Hr).
  destruct (IH Hr) as (H1 & H2). split; [|exact H2].
  rewrite H1, andb_true_r. destruct l1; [reflexivity|exact Ha].
Qed.

Lemma nondecreasing_last (l : list Z) (a b : Z) :
  nondecreasing (l ++ [a; b]) = true ->
  nondecreasing (l ++ [a]) = true /\ (a <= b)%Z.
Proof.
  intros Hn. split.
  - change (l ++ [a; b]) with (l ++ [a] ++ [b]) in Hn. rewrite app_assoc in Hn.
    apply (nondecreasing_app _ _ Hn).
  - apply nondecreasing_app in Hn as (_ & Hn). simpl in Hn.
    rewrite andb_true_r in Hn. now apply Z.leb_le.
Qed.

Lemma bounded_weaken (t t' : Z) (c : Collection) :
  (t <= t')%Z -> bounded t c -> bounded t' c.
Proof.
  intros Ht. apply Forall_impl. intros d. destruct (lastLogin d); simpl; [lia|auto].
Qed.

Lemma find_from_app (k : nat) (u : string) (c : Collection) (d : UserDoc) :
  find_from k u (c ++ [d]) =
  match find_from k u c with
  | Some r => Some r
  | None => if has_username u d then Some (k + length c, d) else None
  end.
Proof.
  revert k. induction c as [|x c IH]; intros k; simpl.
  - now rewrite Nat.add_0_r.
  - destruct (has_username u x); [reflexivity|].
    rewrite IH. now rewrite Nat.add_succ_r.
Qed.

Lemma lastLoginOf_snoc (u : string) (c : Collection) (d : UserDoc) :
  lastLogin d = None -> lastLoginOf u (c ++ [d]) = lastLoginOf u c.
Proof.
  intros Hd. unfold lastLoginOf, findOne. rewrite find_from_app.
  destruct (find_from 0 u c) as [[j x]|]; [reflexivity|].
  destruct (has_username u d); [exact Hd|reflexivity].
Qed.

Lemma find_from_update_at (k i : nat) (u : string) (f : UserDoc -> UserDoc) (c : Collection) :
  (forall d, username (f d) = username d) ->
  find_from k u (update_at i f c) =
  match find_from k u c with
  | Some (j, d) => Some (j, if (j =? k + i)%nat then f d else d)
  | None => None
  end.
Proof.
  intros Hf. revert k i. induction c as [|x c IH]; intros k i; simpl.
  { destruct i; reflexivity. }
  destruct i as [|i]; simpl.
  - unfold has_username. rewrite Hf. fold (has_username u x).
    destruct (has_username u x).
    + now rewrite Nat.add_0_r, Nat.eqb_refl.
    + destruct (find_from (S k) u c) as [[j d]|] eqn:Hj; [|reflexivity].
      destruct (find_from_Some _ _ _ Hj) as (Hle & _).
      destruct (Nat.eqb_spec j (k + 0)); [lia|reflexivity].
  - destruct (has_username u x).
    + destruct (Nat.eqb_spec k (k + S i)); [lia|reflexivity].
    + rewrite IH. destruct (find_from (S k) u c) as [[j d]|]; [|reflexivity].
      now rewrite Nat.add_succ_r.
Qed.

Lemma lastLoginOf_stamp (u : string) (t : Z) (i : nat) (c : Collection) :
  lastLoginOf u (update_at i (stamp t) c) =
  match findOne u c with
  | Some (j, d) => if (j =? i)%nat then Some t else lastLogin d
  | None => None
  end.
Proof.
  unfold lastLoginOf, findOne. rewrite find_from_update_at by reflexivity.
  destruct (find_from 0 u c) as [[j d]|]; [|reflexivity].
  simpl. destruct (j =? i)%nat; reflexivity.
Qed.

Lemma bounded_stamp (t : Z) (i : nat) (c : Collection) :
  bounded t c -> bounded t (update_at i (stamp t) c).
Proof.
  unfold bounded. revert i. induction c as [|d c IH]; intros i Hb; [destruct i; auto|].
  inversion Hb; subst. destruct i; simpl; constructor; auto. simpl. lia.
Qed.


(** ** Hashing on registration *)

Lemma length_fit (n : nat) (s : string) : String.length (fit n s) = n.
Proof.
  revert s. induction n as [|n IH]; intros s; simpl; [reflexivity|].
  destruct s; simpl; now rewrite IH.
Qed.

Lemma length_genSalt (rounds : nat) (rnd : string) :
  String.length (genSalt rounds rnd) = 29.
Proof.
  unfold genSalt, bcrypt_prefix, two_digits. cbn [append String.length].
  now rewrite length_fit.
Qed.

Lemma substring_append (a b : string) :
  substring 0 (String.length a) (a ++ b)%string = a.
Proof. induction a as [|x a IH]; simpl; [now destruct b|now rewrite IH]. Qed.

Lemma length_append (a b : string) :
  String.length (a ++ b)%string = String.length a + String.length b.
Proof. induction a as [|x a IH]; simpl; [reflexivity|now rewrite IH]. Qed.

Lemma append_assoc (a b c : string) : ((a ++ b) ++ c = a ++ (b ++ c))%string.
Proof. induction a as [|x a IH]; simpl; [reflexivity|now rewrite IH]. Qed.

Section Hashing.
Context `{Blowfish}.

(** [bcrypt.compare] accepts the password a hash was made from. *)
Lemma bcrypt_compare_hash (pw rnd : string) (rounds : nat) :
  bcrypt_compare pw (bcrypt_hash pw (genSalt rounds rnd)) = true.
Proof.
  unfold bcrypt_compare. unfold bcrypt_hash at 2.
  rewrite <- (length_genSalt rounds rnd) at 1. rewrite substring_append.
  apply String.eqb_refl.
Qed.

(** After a successful registration the stored password is the bcrypt
    hash of the one sent, under the salt drawn for this call. *)
Lemma register_stores_hash (e : Env) (b : Body) (c : Collection) :
  status (result (exec e (register e b) c)) = 201 ->
  findOne (str (req_username b)) (final (exec e (register e b) c)) =
  Some (length c, stored_user e (str (req_username b)) (str (req_password b))).
Proof.
  intros Hs.
  destruct (register_cases e b c) as [(Hn & _)|(Hx & _ & Hr)]; [contradiction|].
  rewrite Hr. simpl. unfold findOne in *. rewrite find_from_app, Hx.
  unfold has_username. simpl. now rewrite String.eqb_refl.
Qed.


(** A bcrypt hash passes the validators of [password], which run again
    on every [save] of a loaded document. *)
Lemma hash_passes_validation (pw rnd : string) :
  validate_password (bcrypt_hash pw (genSalt 10 rnd)) = None.
Proof.
  unfold validate_password.
  assert (Hlen : 29 <= String.length (bcrypt_hash pw (genSalt 10 rnd))).
  { unfold bcrypt_hash. rewrite length_append, length_genSalt. lia. }
  destruct (String.eqb_spec (bcrypt_hash pw (genSalt 10 rnd)) "") as [E|_].
  { rewrite E in Hlen. simpl in Hlen. lia. }
  destruct (Nat.ltb_spec (String.length (bcrypt_hash pw (genSalt 10 rnd))) 6);
    [lia|reflexivity].
Qed.

(** Whoever has registered can log in with the same credentials. *)
Lemma register_then_login (v : version) (e1 e2 : Env) (b : Body) (c : Collection) :
  status (result (exec e1 (register e1 b) c)) = 201 ->
  result (exec e2 (login v e2 b) (final (exec e1 (register e1 b) c))) =
  logged_in v e2 (str (req_username b)).
Proof.
  intros Hs.
  assert (Hf : falsy (req_username b) || falsy (req_password b) = false).
  { destruct (falsy (req_username b) || falsy (req_password b)) eqn:E; [|reflexivity].
    rewrite (register_missing e1 b c E) in Hs. discriminate. }
  destruct (register_cases e1 b c) as [(Hn & _)|(Hx & Hv & Hr)]; [contradiction|].
  rewrite Hr. simpl.
  rewrite (@login_accepted _ v e2 b _ (length c)
             (stored_user e1 (str (req_username b)) (str (req_password b)))).
  - reflexivity.
  - exact Hf.
  - unfold findOne in *. rewrite find_from_app, Hx.
    unfold has_username. simpl. now rewrite String.eqb_refl.
  - apply bcrypt_compare_hash.
  - unfold valid in *. unfold stored_user. cbn [username password].
    rewrite hash_passes_validation.
    destruct (validate_username (str (req_username b))); [discriminate|reflexivity].
Qed.

(** The stored hash starts with the bcrypt prefix, so it differs from
    every password that does not. *)
Lemma stored_hash_differs (pw rnd : string) :
  substring 0 7 pw <> bcrypt_prefix 10 -> bcrypt_hash pw (genSalt 10 rnd) <> pw.
Proof.
  intros Hp Heq. apply Hp. rewrite <- Heq at 1.
  unfold bcrypt_hash, genSalt. rewrite append_assoc.
  apply (substring_append (bcrypt_prefix 10)).
Qed.

End Hashing.

(** ** Concrete runs *)

(** C1 fails as stated: a username of length 2 that is not stored is
    answered 500, and a stored username with a password of length 3 is
    answered 409; neither is the 400 class. *)
Lemma register_length_violation_not_400 :
  register_status [] "ab" "secret1" = 500 /\
  register_status alice_registered "alice" "abc" = 409.
Proof. split; reflexivity. Qed.

(** C1: the boundary lengths on the empty collection, an empty
    username, and a stored username with lengths inside the bounds. *)
Lemma register_length_boundaries :
  register_status [] "ab" "secret" <> 201 /\
  register_status [] "abc" "secret" = 201 /\
  register_status [] thirty "secret" = 201 /\
  register_status [] (thirty ++ "4") "secret" <> 201 /\
  register_status [] "alice" "secre" <> 201 /\
  register_status [] "alice" "secret" = 201 /\
  register_status [] "" "secret" = 400 /\
  register_status alice_registered "alice" "secret" = 409.
Proof.
  unfold register_status.
  refine (conj _ (conj _ (conj _ (conj _ (conj _ (conj _ (conj _ _))))))).
  - exact (proj1 (proj1 (proj2 (@register_length_validation toy at_2000
                           (creds "ab" "secret") [])) eq_refl eq_refl)).
  - exact (f_equal status (proj1 (proj1 (proj2 (@register_length_validation toy at_2000
                           (creds "abc" "secret") [])) eq_refl eq_refl))).
  - exact (f_equal status (proj1 (proj1 (proj2 (@register_length_validation toy at_2000
                           (creds thirty "secret") [])) eq_refl eq_refl))).
  - exact (proj1 (proj1 (proj2 (@register_length_validation toy at_2000
                           (creds (thirty ++ "4") "secret") [])) eq_refl eq_refl)).
  - exact (proj1 (proj1 (proj2 (@register_length_validation toy at_2000
                           (creds "alice" "secre") [])) eq_refl eq_refl)).
  - exact (f_equal status (proj1 (proj1 (proj2 (@register_length_validation toy at_2000
                           (creds "alice" "secret") [])) eq_refl eq_refl))).
  - exact (f_equal status (proj1 (proj1 (@register_length_validation toy at_2000
                           (creds "" "secret") []) eq_refl))).
  - refine (proj2 (proj2 (proj2 (@register_length_validation toy at_2000
                           (creds "alice" "secret") alice_registered)) eq_refl) _).
    discriminate.
Defined.

(** C3: three registrations of alice in flight together, each with a
    password of its own, all three lookups ahead of the insertions:
    one is answered 201 and one document named alice is stored. *)
Lemma concurrent_registrations_one_winner_alice :
  let r := run_pool (H:=toy) [0; 1; 2; 0; 1; 2; 0; 1; 2; 0; 1; 2]
             (registrations_as "alice" alice_three_times) [] in
  forallb finished (fst r) = true /\
  successes (fst r) = 1 /\ count_user "alice" (snd r) = 1.
Proof.
  refine (conj eq_refl _).
  refine (proj1 (@concurrent_registrations_one_winner toy "alice" alice_three_times [] _ _ _)
            [0; 1; 2; 0; 1; 2; 0; 1; 2; 0; 1; 2] eq_refl).
  - discriminate.
  - repeat constructor.
  - reflexivity.
Defined.

(** C3: the handler reads and then writes, and when both lookups run
    ahead of both insertions the registration that loses is answered
    500, which is not the duplicate-username answer. *)
Lemma concurrent_loser_not_409 :
  trace (exec (H:=toy) at_1000 (register at_1000 (creds "alice" "secret1")) []) =
    [KFindOne; KGenSalt; KHash; KInsertOne] /\
  map (fun t => option_map status (response_of t))
      (fst (run_pool (H:=toy) [0; 1; 0; 0; 0; 1; 1; 1]
                     (registrations [at_1000; at_2000] "alice" "secret1") [])) =
    [Some 201; Some 500].
Proof. split; reflexivity. Qed.




(** The values [lastLogin] takes along that history. *)
Example alice_lastLogin_values :
  map (fun n => lastLoginOf "alice"
                  (serve_all (H:=toy) Original (firstn n alice_history) []))
      [1; 2; 3; 4] =
  [None; Some 2000%Z; Some 2000%Z; Some 3000%Z].
Proof. reflexivity. Qed.

(** C7: alice logs in at 2000. *)
Lemma login_changes_only_lastLogin_alice :
  let r := exec (H:=toy) at_2000 (login MockToken at_2000 (creds "alice" "secret1"))
                alice_registered in
  map username (final r) = map username alice_registered /\
  map password (final r) = map password alice_registered /\
  map createdAt (final r) = map createdAt alice_registered /\
  exists i d,
    findOne "alice" alice_registered = Some (i, d) /\
    nth_error (final r) i = Some (stamp 2000 d) /\
    forall j, j <> i -> nth_error (final r) j = nth_error alice_registered j.
Proof.
  apply (@login_changes_only_lastLogin toy MockToken at_2000
           (creds "alice" "secret1") alice_registered).
  reflexivity.
Defined.

(** C9: a username of two characters. *)
Lemma invalid_register_hashes_and_writes_nothing_ab :
  let r := exec (H:=toy) at_2000 (register at_2000 (creds "ab" "secret1"))
                alice_registered in
  status (result r) <> 201 /\ final r = alice_registered /\
  existsb is_hashing (trace r) = false /\ existsb is_write (trace r) = false /\
  trace r = [KFindOne].
Proof.
  apply (@invalid_register_hashes_and_writes_nothing toy at_2000
           (creds "ab" "secret1") alice_registered).
  reflexivity.
Defined.

(** C9: the lookup, a storage call, runs before the length of the
    username is checked. *)
Lemma register_lookup_precedes_validation :
  existsb is_storage
    (trace (exec (H:=toy) at_2000 (register at_2000 (creds "ab" "secret1")) [])) = true /\
  status (result (exec (H:=toy) at_2000 (register at_2000 (creds "ab" "secret1")) [])) = 500.
Proof. split; reflexivity. Qed.

(** C10: alice with a wrong password. *)
Lemma failed_login_leaves_collection_alice :
  let r := exec (H:=toy) at_2000 (login Original at_2000 (creds "alice" "wrong"))
                alice_registered in
  status (result r) <> 200 /\ final r = alice_registered /\
  existsb is_write (trace r) = false.
Proof.
  apply (@failed_login_leaves_collection toy Original at_2000
           (creds "alice" "wrong") alice_registered).
  right. right. right.
  exists 0, (stored_user (H:=toy) at_1000 "alice" "secret1").
  split; reflexivity.
Defined.

(** The end-to-end scenario: register alice, log her in, refuse a wrong
    password and an unknown user alike. *)
Example end_to_end :
  result (exec (H:=toy) at_1000 (register at_1000 (creds "alice" "secret1")) []) =
    created at_1000 "alice" /\
  result (exec (H:=toy) at_2000 (login Original at_2000 (creds "alice" "secret1"))
               alice_registered) = logged_in Original at_2000 "alice" /\
  status (result (exec (H:=toy) at_2000 (login Original at_2000 (creds "alice" "wrong"))
                       alice_registered)) = 401 /\
  status (result (exec (H:=toy) at_2000 (login Original at_2000 (creds "bob" "whatever"))
                       alice_registered)) = 401.
Proof. repeat split; reflexivity. Qed.

(** ** Facts about what requests leave alone *)

Lemma extends_refl (c : Collection) : extends c c.
Proof. exists []. now rewrite app_nil_r. Qed.

Lemma extends_trans (a b c : Collection) : extends a b -> extends b c -> extends a c.
Proof.
  intros [m1 H1] [m2 H2]. exists (m1 ++ m2). now rewrite H2, H1, app_assoc.
Qed.

Lemma not_stored_not_in (u : string) (c : Collection) :
  existsb (has_username u) c = false -> ~ In u (map username c).
Proof.
  induction c as [|d c IH]; simpl; [tauto|].
  unfold has_username at 1. intros Hn. apply orb_false_iff in Hn as (Hd & Hc).
  apply String.eqb_neq in Hd. intros [E|E]; [contradiction|now apply IH].
Qed.

Lemma NoDup_snoc (u : string) (l : list string) :
  NoDup l -> ~ In u l -> NoDup (l ++ [u]).
Proof.
  intros Hl Hu. induction Hl as [|x l Hx Hl IH]; simpl.
  - constructor; [tauto|constructor].
  - constructor.
    + rewrite in_app_iff. simpl. intros [E|[E|[]]]; [contradiction|].
      subst. apply Hu. now left.
    + apply IH. intros E. apply Hu. now right.
Qed.

Section Keeping.
Context `{Blowfish}.

(** One awaited operation keeps the stored documents and the
    uniqueness of the usernames, unless it is an update that assigns
    more than [lastLogin]. *)
Lemma perform_keeps (e : Env) (X : Type) (o : op X) (c : Collection) :
  match o with
  | UpdateOne _ ps _ => ps = [PlastLogin]
  | _ => True
  end ->
  extends c (snd (perform e o c)) /\
  (NoDup (map username c) -> NoDup (map username (snd (perform e o c)))).
Proof.
  destruct o as [u|d|i ps src|n|pw salt|pw h|q]; simpl; intros Hps;
    try (split; [apply extends_refl|auto]).
  - unfold insertOne. destruct (existsb (has_username (username d)) c) eqn:E; simpl.
    + split; [apply extends_refl|auto].
    + split.
      * exists [core d]. now rewrite map_app.
      * intros Hn. rewrite map_app. simpl.
        apply NoDup_snoc; [exact Hn|now apply not_stored_not_in].
  - subst ps. unfold updateOne. split.
    + exists []. rewrite app_nil_r. now apply update_at_map.
    + intros Hn. rewrite update_at_map; [exact Hn|reflexivity].
Qed.

Lemma harmless_step (e : Env) (R X : Type) (o : op X) (k : X -> prog R) (c : Collection) :
  harmless (Await o k) ->
  harmless (k (fst (perform e o c))) /\
  extends c (snd (perform e o c)) /\
  (NoDup (map username c) -> NoDup (map username (snd (perform e o c)))).
Proof.
  intros Hh. split.
  - destruct o; simpl in Hh; apply Hh.
  - apply perform_keeps. destruct o; simpl in Hh; first [exact I|apply Hh].
Qed.

Lemma exec_keeps (e : Env) (R : Type) (m : prog R) (c : Collection) :
  harmless m ->
  extends c (final (exec e m c)) /\
  (NoDup (map username c) -> NoDup (map username (final (exec e m c)))).
Proof.
  revert c. induction m as [r|X o k IH]; intros c Hh.
  - simpl. split; [apply extends_refl|auto].
  - destruct (harmless_step e o k c Hh) as (Hk & He & Hn).
    simpl. destruct (perform e o c) as [x c1]. simpl in *.
    destruct (IH x c1 Hk) as (He1 & Hn1). split.
    + eapply extends_trans; eassumption.
    + auto.
Qed.

Lemma harmless_save (d : Document) :
  (isNew d = false -> modifiedPaths d = [PlastLogin]) -> harmless (save d).
Proof.
  intros Hd. unfold save. destruct (validate (fields d)); [|exact I].
  unfold pre_save. destruct (isModified d Ppassword) eqn:Hm; cbn.
  - intros salt h. cbn. destruct (isNew d) eqn:Hnew; cbn.
    + intros [err|i]; exact I.
    + unfold isModified in Hm. rewrite (Hd eq_refl) in Hm. discriminate.
  - destruct (isNew d) eqn:Hnew; cbn.
    + intros [err|i]; exact I.
    + split; [now apply Hd|intros _; exact I].
Qed.

Lemma harmless_bind (A B : Type) (m : prog A) (f : A -> prog B) :
  harmless m -> (forall a, harmless (f a)) -> harmless (bind m f).
Proof.
  intros Hm Hf. induction m as [a|X o k IH]; simpl; [apply Hf|].
  destruct o; simpl in *; try (intros x; apply IH; apply Hm).
  split; [apply Hm|]. intros x. apply IH. apply Hm.
Qed.

Lemma harmless_register (e : Env) (b : Body) : harmless (register e b).
Proof.
  unfold register. destruct (falsy (req_username b) || falsy (req_password b)); [exact I|].
  unfold try_catch, bindE, User_findOne. cbn. intros [x|]; cbn; [exact I|].
  apply harmless_bind.
  - apply harmless_bind; [apply harmless_save; discriminate|].
    intros [err|d]; exact I.
  - intros [err|r]; exact I.
Qed.

Lemma harmless_login (v : version) (e : Env) (b : Body) : harmless (login v e b).
Proof.
  unfold login. destruct (falsy (req_username b) || falsy (req_password b)); [exact I|].
  unfold try_catch, bindE, User_findOne. cbn. intros [x|]; cbn; [|exact I].
  intros [|]; cbn; [|exact I].
  apply harmless_bind.
  - apply harmless_bind; [apply harmless_save; reflexivity|].
    intros [err|d]; exact I.
  - intros [err|r]; exact I.
Qed.

Lemma harmless_handler (v : version) (x : call) : harmless (handler v x).
Proof.
  unfold handler. destruct (snd x); [apply harmless_register|apply harmless_login].
Qed.

Lemma serve_handler (v : version) (x : call) (c : Collection) :
  serve v x c = exec (fst x) (handler v x) c.
Proof. unfold serve, handler. now destruct (snd x). Qed.

Lemma serve_all_keeps (v : version) (h : list call) (c : Collection) :
  extends c (serve_all v h c) /\
  (NoDup (map username c) -> NoDup (map username (serve_all v h c))).
Proof.
  revert c. induction h as [|x h IH]; intros c.
  - split; [apply extends_refl|auto].
  - unfold serve_all. simpl. fold (serve_all v h (final (serve v x c))).
    rewrite serve_handler.
    destruct (exec_keeps (fst x) (handler v x) c (harmless_handler v x)) as (He & Hn).
    destruct (IH (final (exec (fst x) (handler v x) c))) as (He' & Hn').
    split; [eapply extends_trans; eassumption|auto].
Qed.

Lemma step_pool_keeps (i : nat) (ts : list task) (c : Collection) :
  Forall (fun t => harmless (snd t)) ts ->
  Forall (fun t => harmless (snd t)) (fst (step_pool i ts c)) /\
  extends c (snd (step_pool i ts c)) /\
  (NoDup (map username c) -> NoDup (map username (snd (step_pool i ts c)))).
Proof.
  revert i. induction ts as [|[e m] ts IH]; intros i Hall.
  - destruct i; simpl; repeat split; auto; apply extends_refl.
  - inversion Hall as [|? ? Ht Hts]; subst. destruct i as [|i]; simpl.
    + unfold step_task. simpl. destruct m as [r|X o k]; simpl.
      * repeat split; auto. apply extends_refl.
      * destruct (harmless_step e o k c Ht) as (Hk & He & Hn).
        destruct (perform e o c) as [x c1]. simpl in *.
        repeat split; auto.
    + destruct (IH i Hts) as (Ha & He & Hn).
      destruct (step_pool i ts c) as [ts1 c1]. simpl in *.
      repeat split; auto.
Qed.

Lemma run_pool_keeps (sched : list nat) (ts : list task) (c : Collection) :
  Forall (fun t => harmless (snd t)) ts ->
  extends c (snd (run_pool sched ts c)) /\
  (NoDup (map username c) -> NoDup (map username (snd (run_pool sched ts c)))).
Proof.
  revert ts c. induction sched as [|i sched IH]; intros ts c Hall; simpl.
  - split; [apply extends_refl|auto].
  - destruct (step_pool_keeps i c Hall) as (Ha & He & Hn).
    destruct (step_pool i ts c) as [ts1 c1]. simpl in *.
    destruct (IH ts1 c1 Ha) as (He' & Hn').
    split; [eapply extends_trans; eassumption|auto].
Qed.

End Keeping.

Lemma extends_nth_error (c c' : Collection) (i : nat) (d : UserDoc) :
  extends c c' -> nth_error c i = Some d ->
  exists d', nth_error c' i = Some d' /\ core d' = core d.
Proof.
  intros [more Hm] Hd.
  assert (Hc : nth_error (map core c') i = Some (core d)).
  { rewrite Hm, nth_error_app1.
    - now rewrite nth_error_map, Hd.
    - rewrite length_map. apply nth_error_Some. congruence. }
  rewrite nth_error_map in Hc.
  destruct (nth_error c' i) as [d'|]; [|discriminate].
  exists d'. split; [reflexivity|]. simpl in Hc. congruence.
Qed.

Lemma Forall_update_at (P : UserDoc -> Prop) (f : UserDoc -> UserDoc) (i : nat) (c : Collection) :
  (forall d, P d -> P (f d)) -> Forall P c -> Forall P (update_at i f c).
Proof.
  intros Hf. revert i. induction c as [|d c IH]; intros i Hc; [destruct i; auto|].
  inversion Hc; subst. destruct i; simpl; constructor; auto.
Qed.

Section Invariants.
Context `{Blowfish}.

(** X1.  Served one after the other from a collection whose usernames
    are pairwise distinct, requests of either route leave them pairwise
    distinct, and every document that was stored is still at its
    position with the username, the password and the creation date it
    had. *)
Theorem history_keeps_users (v : version) (h : list call) (c : Collection) :
  NoDup (map username c) ->
  NoDup (map username (serve_all v h c)) /\
  forall i d, nth_error c i = Some d ->
    exists d', nth_error (serve_all v h c) i = Some d' /\
               username d' = username d /\ password d' = password d /\
               createdAt d' = createdAt d.
Proof.
  intros Hn. destruct (serve_all_keeps v h c) as (He & Hn'). split; [auto|].
  intros i d Hd. destruct (extends_nth_error i He Hd) as (d' & Hd' & Hc).
  exists d'. unfold core in Hc. injection Hc as -> -> ->. auto.
Qed.

(** X2.  The same holds when the requests are in flight together,
    however their awaited operations interleave. *)
Theorem pool_keeps_users (v : version) (calls : list call) (sched : list nat) (c : Collection) :
  NoDup (map username c) ->
  NoDup (map username (snd (run_pool sched (in_flight v calls) c))) /\
  forall i d, nth_error c i = Some d ->
    exists d', nth_error (snd (run_pool sched (in_flight v calls) c)) i = Some d' /\
               username d' = username d /\ password d' = password d /\
               createdAt d' = createdAt d.
Proof.
  intros Hn.
  assert (Hall : Forall (fun t => harmless (snd t)) (in_flight v calls)).
  { unfold in_flight. apply Forall_map. apply Forall_forall. intros x _.
    apply harmless_handler. }
  destruct (run_pool_keeps sched c Hall) as (He & Hn'). split; [auto|].
  intros i d Hd. destruct (extends_nth_error i He Hd) as (d' & Hd' & Hc).
  exists d'. unfold core in Hc. injection Hc as -> -> ->. auto.
Qed.

Lemma well_formed_valid (d : UserDoc) :
  well_formed d -> valid (username d) (password d) = true.
Proof.
  intros (p & rnd & Hb & Hp). rewrite <- valid_in_bounds in Hb.
  unfold valid in *. rewrite Hp, hash_passes_validation.
  destruct (validate_username (username d)); [discriminate|reflexivity].
Qed.

Lemma well_formed_prefix (d : UserDoc) :
  well_formed d -> substring 0 7 (password d) = bcrypt_prefix 10.
Proof.
  intros (p & rnd & _ & ->). unfold bcrypt_hash, genSalt. rewrite append_assoc.
  apply (substring_append (bcrypt_prefix 10)).
Qed.

Lemma serve_well_formed (v : version) (x : call) (c : Collection) :
  Forall well_formed c -> Forall well_formed (final (serve v x c)).
Proof.
  intros Hc. destruct x as [e [b|b]]; unfold serve; simpl.
  - destruct (register_cases e b c) as [(_ & -> & _)|(_ & Hv & ->)]; [exact Hc|].
    simpl. apply Forall_app. split; [exact Hc|]. constructor; [|constructor].
    exists (str (req_password b)), (entropy e). simpl.
    rewrite <- valid_in_bounds. auto.
  - destruct (login_cases v e b c) as [(_ & -> & _)|(i & d & _ & _ & ->)]; [exact Hc|].
    simpl. apply Forall_update_at; [|exact Hc].
    intros y (p & rnd & Hb & Hp). exists p, rnd. auto.
Qed.

(** X3.  Starting from a collection of documents [register] could have
    written, every stored document stays one: its username has between
    3 and 30 characters and its password is a bcrypt string, the hash
    of a password of at least 6 characters, which passes the schema
    again. *)
Theorem stored_documents_well_formed (v : version) (h : list call) (c : Collection) :
  Forall well_formed c ->
  Forall (fun d => well_formed d /\
                   substring 0 7 (password d) = bcrypt_prefix 10 /\
                   valid (username d) (password d) = true)
         (serve_all v h c).
Proof.
  intros Hc.
  assert (Hw : Forall well_formed (serve_all v h c)).
  { revert c Hc. induction h as [|x h IH]; intros c Hc; [exact Hc|].
    unfold serve_all. simpl. apply IH. now apply serve_well_formed. }
  eapply Forall_impl; [|exact Hw]. intros d Hd.
  split; [exact Hd|]. split; [now apply well_formed_prefix|now apply well_formed_valid].
Qed.

(** X7.  The two versions of [login] perform the same operations, leave
    the same collection and answer with the same status; they answer
    alike when they refuse, and when they accept the later version adds
    the token to an otherwise equal body. *)
Theorem login_versions_agree (e : Env) (b : Body) (c : Collection) :
  let r1 := exec e (login Original e b) c in
  let r2 := exec e (login MockToken e b) c in
  final r1 = final r2 /\ trace r1 = trace r2 /\
  status (result r1) = status (result r2) /\
  (result r1 = result r2 /\ status (result r1) <> 200 \/
   result r1 = logged_in Original e (str (req_username b)) /\
   result r2 = logged_in MockToken e (str (req_username b))).
Proof.
  cbv zeta.
  destruct (falsy (req_username b) || falsy (req_password b)) eqn:Hf.
  { rewrite !(login_missing _ e b c Hf). simpl. repeat split. left. split; [reflexivity|discriminate]. }
  destruct (findOne (str (req_username b)) c) as [[i d]|] eqn:Hx.
  2:{ rewrite !(login_unknown _ e b c Hf Hx). simpl. repeat split.
      left. split; [reflexivity|discriminate]. }
  destruct (bcrypt_compare (str (req_password b)) (password d)) eqn:Hm.
  2:{ rewrite !(login_wrong_password _ e b c Hf Hx Hm). simpl. repeat split.
      left. split; [reflexivity|discriminate]. }
  destruct (valid (username d) (password d)) eqn:Hv.
  2:{ rewrite !(login_save_rejected _ e b c Hf Hx Hm Hv). simpl. repeat split.
      left. split; [reflexivity|discriminate]. }
  rewrite !(login_accepted _ e b c Hf Hx Hm Hv). simpl. repeat split. now right.
Qed.

End Invariants.

(** ** Registrations of different usernames in flight together *)

Section Distinct.
Context `{Blowfish}.

Lemma stored_snoc (u : string) (c : Collection) (d : UserDoc) :
  stored u (c ++ [d]) = stored u c || (username d =? u)%string.
Proof. unfold stored. rewrite existsb_app. simpl. now rewrite orb_false_r. Qed.

Lemma registering_free (u : string) (c : Collection) (e : Env) (m : prog Response) :
  registering u m -> stored u c = false -> task_free u c (e, m).
Proof. destruct m; simpl; [contradiction|]. unfold task_free. simpl. auto. Qed.

Lemma step_task_free (u : string) (t : task) (c : Collection) :
  task_free u c t ->
  task_free u (snd (step_task t c)) (fst (step_task t c)) /\
  (snd (step_task t c) = c \/
   exists d, snd (step_task t c) = c ++ [d] /\ username d = u).
Proof.
  destruct t as [e m]. unfold step_task. simpl.
  destruct m as [r|X o k]; [simpl; auto|].
  unfold task_free at 1. simpl.
  destruct o as [u'|d|i ps src|n|pw salt|pw h|q]; simpl;
    try (intros ([] & _); fail).
  - intros ((-> & Hnone & _) & Hs).
    rewrite (proj2 (findOne_None u c) Hs).
    split; [now apply registering_free|now left].
  - intros ((Hd & _ & Haccepted) & Hs). unfold insertOne.
    rewrite Hd. unfold stored in Hs. rewrite Hs. simpl.
    destruct (Haccepted (length c)) as (r & Hk & Hr).
    split.
    + unfold task_free. simpl. rewrite Hk. simpl. split; [exact Hr|].
      rewrite stored_snoc, Hd, String.eqb_refl. apply orb_true_r.
    + right. exists d. auto.
  - intros (Hk & Hs). split; [now apply registering_free|now left].
  - intros (Hk & Hs). split; [now apply registering_free|now left].
Qed.

Lemma task_free_other (u : string) (t : task) (c c' : Collection) :
  task_free u c t ->
  c' = c \/ (exists d, c' = c ++ [d] /\ username d <> u) ->
  task_free u c' t.
Proof.
  intros Ht [->|(d & -> & Hd)]; [exact Ht|].
  unfold task_free in *. rewrite stored_snoc.
  apply String.eqb_neq in Hd. rewrite Hd, orb_false_r. exact Ht.
Qed.

Lemma tasks_free_other (rs : list (Env * (string * string))) (ts : list task)
      (c c' : Collection) :
  Forall2 (fun r t => task_free (fst (snd r)) c t) rs ts ->
  c' = c \/ (exists d, c' = c ++ [d] /\
                       ~ In (username d) (map (fun r => fst (snd r)) rs)) ->
  Forall2 (fun r t => task_free (fst (snd r)) c' t) rs ts.
Proof.
  intros Hall Hc. induction Hall as [|r t rs ts Ht Hts IH]; constructor.
  - apply (@task_free_other _ t c c' Ht).
    destruct Hc as [->|(d & -> & Hd)]; [now left|].
    right. exists d. split; [reflexivity|]. intros E. apply Hd. now left.
  - apply IH. destruct Hc as [->|(d & -> & Hd)]; [now left|].
    right. exists d. split; [reflexivity|]. intros E. apply Hd. now right.
Qed.

Lemma step_pool_free (i : nat) (rs : list (Env * (string * string)))
      (ts : list task) (c : Collection) :
  NoDup (map (fun r => fst (snd r)) rs) ->
  Forall2 (fun r t => task_free (fst (snd r)) c t) rs ts ->
  Forall2 (fun r t => task_free (fst (snd r)) (snd (step_pool i ts c)) t)
          rs (fst (step_pool i ts c)) /\
  (snd (step_pool i ts c) = c \/
   exists d, snd (step_pool i ts c) = c ++ [d] /\
             In (username d) (map (fun r => fst (snd r)) rs)).
Proof.
  intros Hn Hall. revert i.
  induction Hall as [|r t rs ts Ht Hts IH]; intros i.
  - destruct i; simpl; split; auto; constructor.
  - simpl in Hn. inversion Hn as [|? ? Hr Hn']; subst.
    destruct i as [|i]; simpl.
    + destruct (@step_task_free (fst (snd r)) t c Ht) as (Ht' & Hc).
      destruct (step_task t c) as [t' c']. simpl in *. split.
      * constructor; [exact Ht'|].
        apply (tasks_free_other Hts).
        destruct Hc as [->|(d & -> & Hd)]; [now left|].
        right. exists d. split; [reflexivity|]. now rewrite Hd.
      * destruct Hc as [->|(d & -> & Hd)]; [now left|].
        right. exists d. split; [reflexivity|]. now left.
    + destruct (IH Hn' i) as (Hts' & Hc).
      destruct (step_pool i ts c) as [ts' c']. simpl in *. split.
      * constructor; [|exact Hts'].
        apply (@task_free_other _ t c c' Ht).
        destruct Hc as [->|(d & -> & Hd)]; [now left|].
        right. exists d. split; [reflexivity|]. intros E. apply Hr. now rewrite <- E.
      * destruct Hc as [->|(d & -> & Hd)]; [now left|].
        right. exists d. split; [reflexivity|]. now right.
Qed.

Lemma run_pool_free (sched : list nat) (rs : list (Env * (string * string)))
      (ts : list task) (c : Collection) :
  NoDup (map (fun r => fst (snd r)) rs) ->
  Forall2 (fun r t => task_free (fst (snd r)) c t) rs ts ->
  Forall2 (fun r t => task_free (fst (snd r)) (snd (run_pool sched ts c)) t)
          rs (fst (run_pool sched ts c)).
Proof.
  intros Hn. revert ts c. induction sched as [|i sched IH]; intros ts c Hall; simpl.
  - exact Hall.
  - destruct (step_pool_free i c Hn Hall) as (Hall' & _).
    destruct (step_pool i ts c) as [ts' c']. simpl in *. now apply IH.
Qed.

Lemma finished_free (rs : list (Env * (string * string))) (ts : list task) (c : Collection) :
  Forall2 (fun r t => task_free (fst (snd r)) c t) rs ts ->
  forallb finished ts = true ->
  forallb succeeded ts = true /\ Forall (fun r => stored (fst (snd r)) c = true) rs.
Proof.
  intros Hall. induction Hall as [|r t rs ts Ht Hts IH]; simpl; [auto|].
  intros Hf. apply andb_true_iff in Hf as (Hf & Hfs).
  destruct (IH Hfs) as (Hs & Hst).
  unfold task_free in Ht. unfold finished in Hf. unfold succeeded at 1.
  destruct (snd t) as [x|]; [|discriminate]. destruct Ht as (Hx & Hu).
  rewrite Hx. simpl. split; [exact Hs|]. constructor; auto.
Qed.

(** X8.  Registrations of pairwise different usernames, each within
    the bounds and not yet stored, do not get in each other's way:
    however their awaited operations interleave, once all have answered
    all have answered 201 and every one of the usernames is stored. *)
Theorem distinct_registrations_all_succeed
        (rs : list (Env * (string * string))) (sched : list nat) (c : Collection) :
  NoDup (map (fun r => fst (snd r)) rs) ->
  Forall (fun r => in_bounds (fst (snd r)) (snd (snd r)) = true /\
                   stored (fst (snd r)) c = false) rs ->
  forallb finished (fst (run_pool sched (registrations_of rs) c)) = true ->
  forallb succeeded (fst (run_pool sched (registrations_of rs) c)) = true /\
  Forall (fun r => stored (fst (snd r)) (snd (run_pool sched (registrations_of rs) c)) = true)
         rs.
Proof.
  intros Hn Hrs Hfin.
  apply (@finished_free rs); [|exact Hfin].
  apply run_pool_free; [exact Hn|].
  clear Hn Hfin. unfold registrations_of.
  induction Hrs as [|r rs (Hb & Hs) Hrs IH]; simpl; constructor; [|exact IH].
  apply registering_free; [|exact Hs]. now apply register_registering.
Qed.

End Distinct.


(** ** One request with a body of any type served alone *)

Lemma find_where_from_Some (q : string -> bool) (c : Collection) (i j : nat) (d : UserDoc) :
  find_where_from i q c = Some (j, d) ->
  i <= j /\ nth_error c (j - i) = Some d /\ q (username d) = true.
Proof.
  revert i. induction c as [|x c IH]; intros i; simpl; [discriminate|].
  destruct (q (username x)) eqn:E.
  - intros [= <- <-]. rewrite Nat.sub_diag. simpl. auto.
  - intros Hf. destruct (IH _ Hf) as (Hle & Hn & Hu).
    split; [lia|]. split; [|exact Hu].
    replace (j - i) with (S (j - S i)) by lia. exact Hn.
Qed.

Section Json.
Context `{Blowfish} `{Operators}.

(** On a body of strings the routes are the ones of [register] and
    [login]. *)
Lemma register_json_of_body (e : Env) (b : Body) :
  register_json e (of_body b) = register e b.
Proof. destruct b as [[u|] [p|]]; reflexivity. Qed.

Lemma login_json_of_body (v : version) (e : Env) (b : Body) :
  login_json v e (of_body b) = login v e b.
Proof.
  destruct b as [[u|] [p|]]; try reflexivity.
  unfold login_json, login, of_body, field_username, field_password,
    req_username, req_password, field, js_falsy, falsy.
  now rewrite !orb_true_r.
Qed.

(** The document [findOne] resolves to is stored at the position it
    comes with. *)
Lemma lookup_Some (v : jsval) (c : Collection) (i : nat) (d : UserDoc) :
  lookup v c = inr (Some (i, d)) -> nth_error c i = Some d.
Proof.
  unfold lookup. destruct (castString v) as [u|].
  - intros [= Hx]. apply (findOne_Some _ _ Hx).
  - destruct (cast_filter v) as [err|q]; [discriminate|].
    intros [= Hx]. destruct (find_where_from_Some _ _ _ Hx) as (_ & Hn & _).
    now rewrite Nat.sub_0_r in Hn.
Qed.

Lemma register_json_missing (e : Env) (f : Fields) (c : Collection) :
  js_falsy (field_username f) || js_falsy (field_password f) = true ->
  exec e (register_json e f) c =
  mkRun (failure 400 "Username and password are required") c [].
Proof. intros Hf. unfold register_json. rewrite Hf. reflexivity. Qed.

Lemma register_json_no_filter (e : Env) (f : Fields) (c : Collection) (err : error) :
  js_falsy (field_username f) || js_falsy (field_password f) = false ->
  lookup (field_username f) c = inl err ->
  exec e (register_json e f) c =
  mkRun (failure 500 "Internal server error during registration") c [].
Proof.
  intros Hf Hx. unfold register_json. rewrite Hf.
  unfold lookup in Hx. unfold User_findOne_json.
  destruct (castString (field_username f)); [discriminate|].
  destruct (cast_filter (field_username f)); [reflexivity|discriminate].
Qed.

Lemma register_json_taken (e : Env) (f : Fields) (c : Collection) (x : nat * UserDoc) :
  js_falsy (field_username f) || js_falsy (field_password f) = false ->
  lookup (field_username f) c = inr (Some x) ->
  exec e (register_json e f) c =
  mkRun (failure 409 "Username already exists") c [KFindOne].
Proof.
  intros Hf Hx. unfold register_json. rewrite Hf.
  unfold lookup in Hx. unfold User_findOne_json.
  destruct (castString (field_username f)).
  - injection Hx as Hx. cbn. rewrite Hx. reflexivity.
  - destruct (cast_filter (field_username f)); [discriminate|].
    injection Hx as Hx. cbn. rewrite Hx. reflexivity.
Qed.

(** A username or password that is an array or an object is refused
    by the validation of [save]. *)
Lemma register_json_no_cast (e : Env) (f : Fields) (c : Collection) :
  js_falsy (field_username f) || js_falsy (field_password f) = false ->
  lookup (field_username f) c = inr None ->
  castString (field_username f) = None \/ castString (field_password f) = None ->
  exec e (register_json e f) c =
  mkRun (failure 500 "Internal server error during registration") c [KFindOne].
Proof.
  intros Hf Hx Hc. unfold register_json. rewrite Hf.
  unfold lookup in Hx. unfold User_findOne_json, save_new.
  destruct (castString (field_username f)) as [u|].
  - destruct Hc as [Hc|Hc]; [discriminate|]. rewrite Hc.
    injection Hx as Hx. cbn. rewrite Hx. reflexivity.
  - destruct (cast_filter (field_username f)); [discriminate|].
    injection Hx as Hx. cbn. rewrite Hx.
    destruct (castString (field_password f)); reflexivity.
Qed.

Lemma register_json_invalid (e : Env) (f : Fields) (c : Collection) (u p : string) :
  js_falsy (field_username f) || js_falsy (field_password f) = false ->
  lookup (field_username f) c = inr None ->
  castString (field_username f) = Some u -> castString (field_password f) = Some p ->
  valid u p = false ->
  exec e (register_json e f) c =
  mkRun (failure 500 "Internal server error during registration") c [KFindOne].
Proof.
  intros Hf Hx Hu Hp Hv. unfold register_json. rewrite Hf.
  unfold lookup in Hx. unfold User_findOne_json, save_new. rewrite Hu in *. rewrite Hp.
  injection Hx as Hx. cbn. rewrite Hx. cbn.
  destruct (validate_invalid _ _ (now e) None Hv) as (y & ys & Hy).
  unfold save. cbn. rewrite Hy. reflexivity.
Qed.

Lemma register_json_created (e : Env) (f : Fields) (c : Collection) (u p : string) :
  js_falsy (field_username f) || js_falsy (field_password f) = false ->
  lookup (field_username f) c = inr None ->
  castString (field_username f) = Some u -> castString (field_password f) = Some p ->
  valid u p = true ->
  exec e (register_json e f) c =
  mkRun (created e u) (c ++ [stored_user e u p]) [KFindOne; KGenSalt; KHash; KInsertOne].
Proof.
  intros Hf Hx Hu Hp Hv. unfold register_json. rewrite Hf.
  unfold lookup in Hx. unfold User_findOne_json, save_new. rewrite Hu in *. rewrite Hp.
  injection Hx as Hx. cbn. rewrite Hx. cbn.
  unfold save. cbn. rewrite (validate_valid _ _ (now e) None Hv). cbn.
  unfold insertOne. cbn. apply findOne_None in Hx. rewrite Hx. reflexivity.
Qed.

Lemma login_json_missing (v : version) (e : Env) (f : Fields) (c : Collection) :
  js_falsy (field_username f) || js_falsy (field_password f) = true ->
  exec e (login_json v e f) c =
  mkRun (failure 400 "Username and password are required") c [].
Proof. intros Hf. unfold login_json. rewrite Hf. reflexivity. Qed.

Lemma login_json_no_filter (v : version) (e : Env) (f : Fields) (c : Collection)
      (err : error) :
  js_falsy (field_username f) || js_falsy (field_password f) = false ->
  lookup (field_username f) c = inl err ->
  exec e (login_json v e f) c =
  mkRun (failure 500 "Internal server error during login") c [].
Proof.
  intros Hf Hx. unfold login_json. rewrite Hf.
  unfold lookup in Hx. unfold User_findOne_json.
  destruct (castString (field_username f)); [discriminate|].
  destruct (cast_filter (field_username f)); [reflexivity|discriminate].
Qed.

Lemma login_json_unknown (v : version) (e : Env) (f : Fields) (c : Collection) :
  js_falsy (field_username f) || js_falsy (field_password f) = false ->
  lookup (field_username f) c = inr None ->
  exec e (login_json v e f) c = mkRun (failure 401 "Invalid credentials") c [KFindOne].
Proof.
  intros Hf Hx. unfold login_json. rewrite Hf.
  unfold lookup in Hx. unfold User_findOne_json.
  destruct (castString (field_username f)).
  - injection Hx as Hx. cbn. rewrite Hx. reflexivity.
  - destruct (cast_filter (field_username f)); [discriminate|].
    injection Hx as Hx. cbn. rewrite Hx. reflexivity.
Qed.

Lemma login_json_found (v : version) (e : Env) (f : Fields) (c : Collection)
      (x : nat * UserDoc) :
  js_falsy (field_username f) || js_falsy (field_password f) = false ->
  lookup (field_username f) c = inr (Some x) ->
  exec e (login_json v e f) c =
  let r := exec e (try_catch (login_found v e (field_password f) (hydrate x))
                     (fun _ => Ret (failure 500 "Internal server error during login"))) c in
  mkRun (result r) (final r) (KFindOne :: trace r).
Proof.
  intros Hf Hx. unfold login_json. rewrite Hf.
  unfold lookup in Hx. unfold User_findOne_json.
  destruct (castString (field_username f)).
  - injection Hx as Hx. cbn. rewrite Hx. reflexivity.
  - destruct (cast_filter (field_username f)); [discriminate|].
    injection Hx as Hx. cbn. rewrite Hx. reflexivity.
Qed.

(** A password that is not a string: [bcrypt.compare] rejects and the
    catch-all answers. *)
Lemma login_json_not_a_string (v : version) (e : Env) (f : Fields) (c : Collection)
      (x : nat * UserDoc) :
  js_falsy (field_username f) || js_falsy (field_password f) = false ->
  lookup (field_username f) c = inr (Some x) ->
  (forall s, field_password f <> JSstring s) ->
  exec e (login_json v e f) c =
  mkRun (failure 500 "Internal server error during login") c [KFindOne].
Proof.
  intros Hf Hx Hp. rewrite (login_json_found v e f c Hf Hx).
  destruct (field_password f) as [| |b|t|s|l|l]; try reflexivity.
  exfalso. now apply (Hp s).
Qed.

Lemma login_json_wrong_password (v : version) (e : Env) (f : Fields) (c : Collection)
      (i : nat) (d : UserDoc) (p : string) :
  js_falsy (field_username f) || js_falsy (field_password f) = false ->
  lookup (field_username f) c = inr (Some (i, d)) ->
  field_password f = JSstring p ->
  bcrypt_compare p (password d) = false ->
  exec e (login_json v e f) c =
  mkRun (failure 401 "Invalid credentials") c [KFindOne; KCompare].
Proof.
  intros Hf Hx Hp Hc. rewrite (login_json_found v e f c Hf Hx). rewrite Hp.
  cbn. rewrite Hc. reflexivity.
Qed.

Lemma login_json_save_rejected (v : version) (e : Env) (f : Fields) (c : Collection)
      (i : nat) (d : UserDoc) (p : string) :
  js_falsy (field_username f) || js_falsy (field_password f) = false ->
  lookup (field_username f) c = inr (Some (i, d)) ->
  field_password f = JSstring p ->
  bcrypt_compare p (password d) = true ->
  valid (username d) (password d) = false ->
  exec e (login_json v e f) c =
  mkRun (failure 500 "Internal server error during login") c [KFindOne; KCompare].
Proof.
  intros Hf Hx Hp Hc Hv. rewrite (login_json_found v e f c Hf Hx). rewrite Hp.
  cbn. rewrite Hc. cbn.
  destruct (validate_invalid _ _ (createdAt d) (Some (now e)) Hv) as (y & ys & Hy).
  unfold save. cbn. rewrite Hy. reflexivity.
Qed.

Lemma login_json_accepted (v : version) (e : Env) (f : Fields) (c : Collection)
      (i : nat) (d : UserDoc) (p : string) :
  js_falsy (field_username f) || js_falsy (field_password f) = false ->
  lookup (field_username f) c = inr (Some (i, d)) ->
  field_password f = JSstring p ->
  bcrypt_compare p (password d) = true ->
  valid (username d) (password d) = true ->
  exec e (login_json v e f) c =
  mkRun (logged_in v e (username d)) (update_at i (stamp (now e)) c)
        [KFindOne; KCompare; KUpdateOne].
Proof.
  intros Hf Hx Hp Hc Hv. rewrite (login_json_found v e f c Hf Hx). rewrite Hp.
  cbn. rewrite Hc. cbn.
  unfold save. cbn. rewrite (validate_valid _ _ (createdAt d) (Some (now e)) Hv). cbn.
  reflexivity.
Qed.

(** The routes on a body of any type assign [lastLogin] and nothing
    else, as the routes on strings do. *)
Lemma harmless_findOne_json (R : Type) (v : jsval) (k : error + option Document -> prog R) :
  (forall err, harmless (k (inl err))) ->
  (forall r, harmless (k (inr (option_map hydrate r)))) ->
  harmless (bind (User_findOne_json v) k).
Proof.
  intros He Hk. unfold User_findOne_json.
  destruct (castString v) as [u|].
  - unfold User_findOne. cbn. intros x. apply Hk.
  - destruct (cast_filter v) as [err|q]; cbn; [apply He|].
    intros x. apply Hk.
Qed.

Lemma harmless_save_new (e : Env) (u p : jsval) : harmless (save_new e u p).
Proof.
  unfold save_new. destruct (castString u); [|exact I].
  destruct (castString p); [|exact I].
  apply harmless_save. discriminate.
Qed.

Lemma harmless_register_json (e : Env) (f : Fields) : harmless (register_json e f).
Proof.
  unfold register_json.
  destruct (js_falsy (field_username f) || js_falsy (field_password f)); [exact I|].
  unfold try_catch, bindE.
  apply harmless_bind; [|intros [err|r]; exact I].
  apply harmless_findOne_json; [intros err; exact I|].
  intros [x|]; cbn; [exact I|].
  apply harmless_bind; [apply harmless_save_new|].
  intros [err|d]; exact I.
Qed.

Lemma harmless_login_json (v : version) (e : Env) (f : Fields) :
  harmless (login_json v e f).
Proof.
  unfold login_json.
  destruct (js_falsy (field_username f) || js_falsy (field_password f)); [exact I|].
  unfold try_catch, bindE.
  apply harmless_bind; [|intros [err|r]; exact I].
  apply harmless_findOne_json; [intros err; exact I|].
  intros [x|]; cbn; [|exact I].
  unfold compare_data. destruct (field_password f); try exact I.
  cbn. intros [|]; cbn; [|exact I].
  apply harmless_bind; [apply harmless_save; reflexivity|].
  intros [err|d]; exact I.
Qed.

End Json.

Section JsonCases.
Context `{Blowfish} `{Operators}.

(** Every register call takes one of the paths above. *)
Lemma register_json_cases (e : Env) (f : Fields) (c : Collection) :
  let r := exec e (register_json e f) c in
  (In (status (result r)) [400; 409; 500] /\ final r = c /\
   existsb is_write (trace r) = false /\ existsb is_hashing (trace r) = false /\
   exists code msg, result r = failure code msg) \/
  (exists u p,
     js_falsy (field_username f) || js_falsy (field_password f) = false /\
     castString (field_username f) = Some u /\ castString (field_password f) = Some p /\
     findOne u c = None /\ valid u p = true /\
     r = mkRun (created e u) (c ++ [stored_user e u p])
               [KFindOne; KGenSalt; KHash; KInsertOne]).
Proof.
  cbv zeta.
  destruct (js_falsy (field_username f) || js_falsy (field_password f)) eqn:Hf.
  { left. rewrite (register_json_missing e f c Hf). cbn. repeat split; eauto. }
  destruct (lookup (field_username f) c) as [err|[x|]] eqn:Hx.
  { left. rewrite (register_json_no_filter e f c Hf Hx). cbn. repeat split; eauto. }
  { left. rewrite (register_json_taken e f c Hf Hx). cbn. repeat split; eauto. }
  destruct (castString (field_username f)) as [u|] eqn:Hu.
  2:{ left. rewrite (register_json_no_cast e f c Hf Hx (or_introl Hu)). cbn.
      repeat split; eauto. }
  destruct (castString (field_password f)) as [p|] eqn:Hp.
  2:{ left. rewrite (register_json_no_cast e f c Hf Hx (or_intror Hp)). cbn.
      repeat split; eauto. }
  destruct (valid u p) eqn:Hv.
  2:{ left. rewrite (register_json_invalid e f c Hf Hx Hu Hp Hv). cbn.
      repeat split; eauto. }
  right. exists u, p. rewrite (register_json_created e f c Hf Hx Hu Hp Hv).
  unfold lookup in Hx. rewrite Hu in Hx. injection Hx as Hx. auto 10.
Qed.

(** Every login call takes one of the paths above. *)
Lemma login_json_cases (v : version) (e : Env) (f : Fields) (c : Collection) :
  let r := exec e (login_json v e f) c in
  (status (result r) <> 200 /\ final r = c /\ existsb is_write (trace r) = false /\
   exists code msg, result r = failure code msg) \/
  (exists i d p,
     lookup (field_username f) c = inr (Some (i, d)) /\
     field_password f = JSstring p /\
     bcrypt_compare p (password d) = true /\
     r = mkRun (logged_in v e (username d)) (update_at i (stamp (now e)) c)
               [KFindOne; KCompare; KUpdateOne]).
Proof.
  cbv zeta.
  destruct (js_falsy (field_username f) || js_falsy (field_password f)) eqn:Hf.
  { left. rewrite (login_json_missing v e f c Hf). cbn. repeat split; eauto. discriminate. }
  destruct (lookup (field_username f) c) as [err|[[i d]|]] eqn:Hx.
  { left. rewrite (login_json_no_filter v e f c Hf Hx). cbn.
    repeat split; eauto. discriminate. }
  2:{ left. rewrite (login_json_unknown v e f c Hf Hx). cbn.
      repeat split; eauto. discriminate. }
  assert (Hs : (exists p, field_password f = JSstring p) \/
               forall s, field_password f <> JSstring s).
  { destruct (field_password f); try (right; discriminate). left. eauto. }
  destruct Hs as [(p & Hp)|Hp].
  2:{ left. rewrite (login_json_not_a_string v e f c Hf Hx Hp). cbn.
      repeat split; eauto. discriminate. }
  destruct (bcrypt_compare p (password d)) eqn:Hc.
  2:{ left. rewrite (login_json_wrong_password v e f c Hf Hx Hp Hc). cbn.
      repeat split; eauto. discriminate. }
  destruct (valid (username d) (password d)) eqn:Hv.
  2:{ left. rewrite (login_json_save_rejected v e f c Hf Hx Hp Hc Hv). cbn.
      repeat split; eauto. discriminate. }
  right. exists i, d, p. rewrite (login_json_accepted v e f c Hf Hx Hp Hc Hv). auto.
Qed.

(** For a username that is a string, a number or a boolean, [findOne]
    looks for its text. *)
Lemma lookup_cast (v : jsval) (u : string) (c : Collection) :
  castString v = Some u -> lookup v c = inr (findOne u c).
Proof. intros Hu. unfold lookup. now rewrite Hu. Qed.

(** C2, as the code has it.  A login for a username that is not stored
    is answered 401 "Invalid credentials".  A login for a stored
    username with a password that [bcrypt.compare] rejects is answered
    the same when the password is a string; when the password is
    anything else that is truthy (a number, [true], an array, an
    object), [bcrypt.compare] throws, the catch-all answers 500
    "Internal server error during login", and the two responses
    differ. *)
Theorem login_failure_depends_on_password_type
        (v1 v2 : version) (e1 e2 : Env) (c : Collection) (f1 f2 : Fields)
        (i : nat) (d : UserDoc) :
  js_falsy (field_username f1) || js_falsy (field_password f1) = false ->
  js_falsy (field_username f2) || js_falsy (field_password f2) = false ->
  lookup (field_username f1) c = inr (Some (i, d)) ->
  lookup (field_username f2) c = inr None ->
  let wrong := result (exec e1 (login_json v1 e1 f1) c) in
  let unknown := result (exec e2 (login_json v2 e2 f2) c) in
  unknown = failure 401 "Invalid credentials" /\
  (forall p, field_password f1 = JSstring p -> bcrypt_compare p (password d) = false ->
     wrong = unknown) /\
  ((forall p, field_password f1 <> JSstring p) ->
     wrong = failure 500 "Internal server error during login" /\ wrong <> unknown).
Proof.
  intros Hf1 Hf2 Hx1 Hx2. cbv zeta.
  rewrite (login_json_unknown v2 e2 f2 c Hf2 Hx2). cbn [result].
  split; [reflexivity|]. split.
  - intros p Hp Hc. now rewrite (login_json_wrong_password v1 e1 f1 c Hf1 Hx1 Hp Hc).
  - intros Hp. rewrite (login_json_not_a_string v1 e1 f1 c Hf1 Hx1 Hp). cbn [result].
    split; [reflexivity|discriminate].
Qed.

(** What was proved of one request with a body of strings holds with a
    body of any type: no response carries a password, a login that
    does not answer 200 leaves the collection alone, a login that does
    rewrites [lastLogin] in the document found and nothing else, and a
    registration that does not answer 201 hashes and writes nothing. *)
Lemma json_responses_never_carry_password (v : version) (e : Env) (f : Fields)
      (c : Collection) :
  let r := result (exec e (register_json e f) c) in
  let l := result (exec e (login_json v e f) c) in
  mentions "password" (body r) = false /\ mentions "passwordHash" (body r) = false /\
  mentions "password" (body l) = false /\ mentions "passwordHash" (body l) = false.
Proof.
  cbv zeta.
  destruct (register_json_cases e f c)
    as [(_ & _ & _ & _ & rc & rm & Hr)|(u & p & _ & _ & _ & _ & _ & Hr)];
  destruct (login_json_cases v e f c)
    as [(_ & _ & _ & lc & lm & Hl)|(i & d & q & _ & _ & _ & Hl)];
    rewrite Hr, Hl; simpl; repeat split; destruct v; reflexivity.
Qed.

Lemma json_failed_login_leaves_collection (v : version) (e : Env) (f : Fields)
      (c : Collection) :
  let r := exec e (login_json v e f) c in
  status (result r) <> 200 -> final r = c /\ existsb is_write (trace r) = false.
Proof.
  cbv zeta. intros Hs.
  destruct (login_json_cases v e f c) as [(_ & Hc & Hw & _)|(i & d & p & _ & _ & _ & Hr)];
    [auto|].
  rewrite Hr in Hs. simpl in Hs. contradiction.
Qed.

Lemma json_login_changes_only_lastLogin (v : version) (e : Env) (f : Fields)
      (c : Collection) :
  let r := exec e (login_json v e f) c in
  status (result r) = 200 ->
  map username (final r) = map username c /\
  map password (final r) = map password c /\
  map createdAt (final r) = map createdAt c /\
  exists i d,
    lookup (field_username f) c = inr (Some (i, d)) /\
    nth_error (final r) i = Some (stamp (now e) d) /\
    forall j, j <> i -> nth_error (final r) j = nth_error c j.
Proof.
  cbv zeta. intros Hs.
  destruct (login_json_cases v e f c) as [(Hn & _)|(i & d & p & Hx & _ & _ & Hr)];
    [contradiction|].
  rewrite Hr. simpl.
  repeat split; try (apply update_at_map; reflexivity).
  exists i, d. split; [exact Hx|]. split.
  - apply update_at_same. apply (@lookup_Some _ (field_username f) c i d Hx).
  - intros j Hj. now apply update_at_other.
Qed.

Lemma json_rejected_register_writes_nothing (e : Env) (f : Fields) (c : Collection) :
  let r := exec e (register_json e f) c in
  status (result r) <> 201 ->
  final r = c /\ existsb is_hashing (trace r) = false /\
  existsb is_write (trace r) = false.
Proof.
  cbv zeta. intros Hs.
  destruct (register_json_cases e f c)
    as [(_ & Hc & Hw & Hh & _)|(u & p & _ & _ & _ & _ & _ & Hr)]; [auto|].
  rewrite Hr in Hs. simpl in Hs. contradiction.
Qed.

End JsonCases.

(** ** Histories of requests with bodies of any type *)

Lemma find_from_unique (k i : nat) (d : UserDoc) (c : Collection) :
  NoDup (map username c) -> nth_error c i = Some d ->
  find_from k (username d) c = Some (k + i, d).
Proof.
  revert k i. induction c as [|x c IH]; intros k i Hn Hd.
  { destruct i; discriminate. }
  simpl in Hn. inversion Hn as [|? ? Hx Hc]; subst.
  destruct i as [|i]; simpl in *.
  - injection Hd as ->. unfold has_username. rewrite String.eqb_refl.
    now rewrite Nat.add_0_r.
  - destruct (has_username (username d) x) eqn:E.
    + exfalso. apply Hx. unfold has_username in E. apply String.eqb_eq in E.
      rewrite E. apply in_map. now apply (nth_error_In c i).
    + rewrite (IH (S k) i Hc Hd). now rewrite Nat.add_succ_r.
Qed.

Lemma findOne_unique (i : nat) (d : UserDoc) (c : Collection) :
  NoDup (map username c) -> nth_error c i = Some d ->
  findOne (username d) c = Some (i, d).
Proof. intros Hn Hd. unfold findOne. now rewrite (@find_from_unique 0 i d c Hn Hd). Qed.

Lemma find_from_extends (k : nat) (u : string) (c c' : Collection)
      (more : list (string * string * Z)) (i : nat) (d : UserDoc) :
  map core c' = map core c ++ more ->
  find_from k u c = Some (i, d) ->
  exists d', find_from k u c' = Some (i, d') /\ core d' = core d.
Proof.
  revert k c'. induction c as [|x c IH]; intros k c' Hm Hf; [discriminate|].
  destruct c' as [|x' c']; [discriminate|].
  simpl in Hm. unfold core at 1 3 in Hm. injection Hm as Hu Hp Ht Hm. simpl in *.
  unfold has_username. rewrite Hu. fold (has_username u x).
  destruct (has_username u x).
  - injection Hf as <- <-. exists x'. split; [reflexivity|]. unfold core. congruence.
  - apply (IH _ _ Hm Hf).
Qed.

Lemma extends_holds (u h : string) (c c' : Collection) :
  extends c c' -> holds u h c -> holds u h c'.
Proof.
  intros [more Hm] (i & d & Hx & Hp).
  destruct (@find_from_extends 0 u c c' more i d Hm Hx) as (d' & Hx' & Hc).
  exists i, d'. split; [exact Hx'|].
  unfold core in Hc. congruence.
Qed.

Lemma logged_in_inj (v : version) (e : Env) (u u' : string) :
  logged_in v e u = logged_in v e u' -> u = u'.
Proof. destruct v; unfold logged_in; simpl; congruence. Qed.

Section JsonHistories.
Context `{Blowfish} `{Operators}.
Variable v : version.

Lemma serve_json_keeps (x : call_json) (c : Collection) :
  extends c (final (serve_json v x c)) /\
  (NoDup (map username c) -> NoDup (map username (final (serve_json v x c)))).
Proof.
  destruct x as [e [f|f]]; unfold serve_json; simpl.
  - apply exec_keeps, harmless_register_json.
  - apply exec_keeps, harmless_login_json.
Qed.

Lemma serve_all_json_keeps (h : list call_json) (c : Collection) :
  extends c (serve_all_json v h c) /\
  (NoDup (map username c) -> NoDup (map username (serve_all_json v h c))).
Proof.
  revert c. induction h as [|x h IH]; intros c.
  - split; [apply extends_refl|auto].
  - unfold serve_all_json. simpl. fold (serve_all_json v h (final (serve_json v x c))).
    destruct (serve_json_keeps x c) as (He & Hn).
    destruct (IH (final (serve_json v x c))) as (He' & Hn').
    split; [eapply extends_trans; eassumption|auto].
Qed.

(** What serving one call does to the collection. *)
Lemma serve_json_cases (x : call_json) (c : Collection) :
  (status (result (serve_json v x c)) <> 200 /\
   (final (serve_json v x c) = c \/
    exists d, lastLogin d = None /\ final (serve_json v x c) = c ++ [d])) \/
  (exists i d,
     nth_error c i = Some d /\
     result (serve_json v x c) = logged_in v (fst x) (username d) /\
     final (serve_json v x c) = update_at i (stamp (now (fst x))) c).
Proof.
  destruct x as [e [f|f]]; unfold serve_json; simpl.
  - left. destruct (register_json_cases e f c)
      as [(Hs & Hc & _)|(u & p & _ & _ & _ & _ & _ & Hr)].
    + split; [|now left]. simpl in Hs. intros E. rewrite E in Hs.
      destruct Hs as [Hs|[Hs|[Hs|[]]]]; discriminate.
    + rewrite Hr. simpl. split; [discriminate|]. right.
      eexists. split; [|reflexivity]. reflexivity.
  - destruct (login_json_cases v e f c)
      as [(Hs & Hc & _)|(i & d & p & Hx & _ & _ & Hr)].
    + left. auto.
    + right. exists i, d. rewrite Hr. simpl.
      split; [apply (@lookup_Some _ (field_username f) c i d Hx)|auto].
Qed.

Lemma serve_json_lastLogin_step (u : string) (x : call_json) (c : Collection) (t : Z) :
  bounded t c -> (t <= now (fst x))%Z ->
  bounded (now (fst x)) (final (serve_json v x c)) /\
  le_opt (lastLoginOf u c) (lastLoginOf u (final (serve_json v x c))).
Proof.
  intros Hb Ht. apply (@bounded_weaken _ _ c Ht) in Hb.
  destruct (serve_json_cases x c)
    as [(_ & [->|(d & Hd & ->)])|(i & d & _ & _ & ->)].
  - split; [exact Hb|apply le_opt_refl].
  - split.
    + apply Forall_app. split; [exact Hb|]. constructor; [|constructor].
      rewrite Hd. exact I.
    + rewrite (@lastLoginOf_snoc u c d Hd). apply le_opt_refl.
  - split; [now apply bounded_stamp|].
    rewrite lastLoginOf_stamp. unfold lastLoginOf.
    destruct (findOne u c) as [[j y]|] eqn:Hu; [|exact I].
    destruct (j =? i)%nat; [|apply le_opt_refl].
    destruct (findOne_Some _ _ Hu) as (Hn & _). apply nth_error_In in Hn.
    unfold bounded in Hb. rewrite Forall_forall in Hb. exact (Hb _ Hn).
Qed.

(** A call that is not answered with the 200 of a login as [u] leaves
    the [lastLogin] of [u] as it is. *)
Lemma serve_json_lastLogin_same (u : string) (x : call_json) (c : Collection) :
  result (serve_json v x c) <> logged_in v (fst x) u ->
  lastLoginOf u (final (serve_json v x c)) = lastLoginOf u c.
Proof.
  intros Hno.
  destruct (serve_json_cases x c)
    as [(_ & [->|(d & Hd & ->)])|(i & d & Hi & Hr & ->)].
  - reflexivity.
  - now apply lastLoginOf_snoc.
  - rewrite lastLoginOf_stamp. unfold lastLoginOf.
    destruct (findOne u c) as [[j y]|] eqn:Hu; [|reflexivity].
    destruct (Nat.eqb_spec j i) as [->|]; [|reflexivity].
    destruct (findOne_Some _ _ Hu) as (Hn & Hy).
    rewrite Hn in Hi. injection Hi as ->.
    exfalso. apply Hno. now rewrite Hr, Hy.
Qed.

(** A call answered with the 200 of a login as [u] sets the
    [lastLogin] of [u] to its reading of the clock. *)
Lemma serve_json_lastLogin_set (u : string) (x : call_json) (c : Collection) :
  NoDup (map username c) ->
  result (serve_json v x c) = logged_in v (fst x) u ->
  lastLoginOf u (final (serve_json v x c)) = Some (now (fst x)).
Proof.
  intros Hn Hr.
  destruct (serve_json_cases x c) as [(Hs & _)|(i & d & Hi & Hr' & ->)].
  { rewrite Hr in Hs. exfalso. apply Hs. reflexivity. }
  rewrite Hr in Hr'. apply logged_in_inj in Hr'. subst u.
  rewrite lastLoginOf_stamp, (@findOne_unique i d c Hn Hi).
  now rewrite Nat.eqb_refl.
Qed.

Lemma serve_all_json_snoc (h : list call_json) (x : call_json) (c : Collection) :
  serve_all_json v (h ++ [x]) c = final (serve_json v x (serve_all_json v h c)).
Proof. unfold serve_all_json. now rewrite fold_left_app. Qed.

Lemma clock_json_snoc (h : list call_json) (x : call_json) :
  clock_json (h ++ [x]) = clock_json h ++ [now (fst x)].
Proof. unfold clock_json. now rewrite map_app. Qed.

(** No stored [lastLogin] is ahead of the clock. *)
Lemma history_json_bounded (h : list call_json) (t : Z) :
  nondecreasing (clock_json h ++ [t]) = true -> bounded t (serve_all_json v h []).
Proof.
  revert t. induction h as [|x h IH] using rev_ind; intros t Hn.
  - constructor.
  - rewrite clock_json_snoc, <- app_assoc in Hn. simpl in Hn.
    apply nondecreasing_last in Hn as (Hn & Ht).
    rewrite serve_all_json_snoc.
    apply (bounded_weaken Ht).
    apply (serve_json_lastLogin_step "" x (IH _ Hn)). lia.
Qed.

Lemma history_json_monotone (u : string) (h : list call_json) :
  nondecreasing (clock_json h) = true ->
  forall h1 h2, h = h1 ++ h2 ->
  le_opt (lastLoginOf u (serve_all_json v h1 [])) (lastLoginOf u (serve_all_json v h [])).
Proof.
  induction h as [|x h IH] using rev_ind; intros Hn h1 h2 Heq.
  - symmetry in Heq. apply app_eq_nil in Heq as (-> & _). apply le_opt_refl.
  - destruct h2 as [|y h2 _] using rev_ind.
    + rewrite app_nil_r in Heq. subst h1. apply le_opt_refl.
    + rewrite app_assoc in Heq. apply app_inj_tail in Heq as (-> & ->).
      rewrite clock_json_snoc in Hn.
      pose proof (proj1 (nondecreasing_app _ _ Hn)) as Hn'.
      eapply le_opt_trans; [apply (IH Hn' h1 h2 eq_refl)|].
      rewrite (serve_all_json_snoc (h1 ++ h2)).
      apply (serve_json_lastLogin_step u y (history_json_bounded _ _ Hn)). lia.
Qed.

Lemma history_json_absent (u : string) (h : list call_json) :
  (forall h1 x h2, h = h1 ++ x :: h2 ->
     result (serve_json v x (serve_all_json v h1 [])) <> logged_in v (fst x) u) ->
  lastLoginOf u (serve_all_json v h []) = None.
Proof.
  induction h as [|x h IH] using rev_ind; intros Hno.
  - reflexivity.
  - rewrite serve_all_json_snoc, serve_json_lastLogin_same.
    + apply IH. intros h1 y h2 ->.
      apply (Hno h1 y (h2 ++ [x])). now rewrite <- app_assoc.
    + apply (Hno h x []). reflexivity.
Qed.

(** C6, as the code has it.  Take requests served one after the other
    from the empty collection.  The [lastLogin] of a user is absent as
    long as no request has been answered with the 200 of a login as
    that user; a request that is answered so sets it to the reading of
    [Date.now()] of that request; and when the readings do not go back
    from one request to the next, at no point of the history is it
    below the value it had at an earlier point. *)
Theorem lastLogin_absent_then_monotone (u : string) (h : list call_json) :
  ((forall h1 x h2, h = h1 ++ x :: h2 ->
      result (serve_json v x (serve_all_json v h1 [])) <> logged_in v (fst x) u) ->
   lastLoginOf u (serve_all_json v h []) = None) /\
  (forall h1 x, h = h1 ++ [x] ->
      result (serve_json v x (serve_all_json v h1 [])) = logged_in v (fst x) u ->
      lastLoginOf u (serve_all_json v h []) = Some (now (fst x))) /\
  (nondecreasing (clock_json h) = true ->
   forall h1 h2, h = h1 ++ h2 ->
      le_opt (lastLoginOf u (serve_all_json v h1 []))
             (lastLoginOf u (serve_all_json v h []))).
Proof.
  split; [apply history_json_absent|]. split.
  - intros h1 x -> Hr. rewrite serve_all_json_snoc.
    apply serve_json_lastLogin_set; [|exact Hr].
    apply (serve_all_json_keeps h1 []). constructor.
  - apply history_json_monotone.
Qed.

(** X4.  [login] served alone on a collection of documents that
    [register] could have written answers 400 when a field is missing
    or falsy; else 500 when [findOne] rejects the filter made of the
    username; else 401 when no document is found; else 500 when the
    password is not a string, because [bcrypt.compare] throws; else 200
    when [bcrypt.compare] accepts the password against the hash of the
    document found, and 401 when it does not. *)
Theorem login_status_table (e : Env) (f : Fields) (c : Collection) :
  Forall well_formed c ->
  status (result (exec e (login_json v e f) c)) =
  if js_falsy (field_username f) || js_falsy (field_password f) then 400
  else match lookup (field_username f) c with
       | inl _ => 500
       | inr None => 401
       | inr (Some (_, d)) =>
           match field_password f with
           | JSstring p => if bcrypt_compare p (password d) then 200 else 401
           | _ => 500
           end
       end.
Proof.
  intros Hc.
  destruct (js_falsy (field_username f) || js_falsy (field_password f)) eqn:Hf.
  { now rewrite (login_json_missing v e f c Hf). }
  destruct (lookup (field_username f) c) as [err|[[i d]|]] eqn:Hx.
  { now rewrite (login_json_no_filter v e f c Hf Hx). }
  2:{ now rewrite (login_json_unknown v e f c Hf Hx). }
  assert (Hs : (exists p, field_password f = JSstring p) \/
               forall s, field_password f <> JSstring s).
  { destruct (field_password f); try (right; discriminate). left. eauto. }
  destruct Hs as [(p & Hp)|Hp].
  2:{ rewrite (login_json_not_a_string v e f c Hf Hx Hp).
      destruct (field_password f) as [| |b|t|s|l|l]; try reflexivity.
      exfalso. now apply (Hp s). }
  rewrite Hp. destruct (bcrypt_compare p (password d)) eqn:Hm.
  2:{ now rewrite (login_json_wrong_password v e f c Hf Hx Hp Hm). }
  assert (Hv : valid (username d) (password d) = true).
  { apply well_formed_valid. rewrite Forall_forall in Hc. apply Hc.
    apply (nth_error_In c i). apply (@lookup_Some _ (field_username f) c i d Hx). }
  now rewrite (login_json_accepted v e f c Hf Hx Hp Hm Hv).
Qed.


(** X6.  Whoever has registered with a password that is a string can
    log in with the same body, whatever requests of either route were
    served in between.  Whoever has registered with a password that is
    not a string (a number or [true], which Mongoose casts to its text
    before hashing) is answered 500 when logging in with the same
    body. *)
Theorem credentials_keep_working (e1 e2 : Env) (f : Fields)
        (h : list call_json) (c : Collection) :
  status (result (exec e1 (register_json e1 f) c)) = 201 ->
  let c' := serve_all_json v h (final (exec e1 (register_json e1 f) c)) in
  let r := exec e2 (login_json v e2 f) c' in
  exists u,
    castString (field_username f) = Some u /\
    match field_password f with
    | JSstring _ => result r = logged_in v e2 u
    | _ => result r = failure 500 "Internal server error during login" /\ final r = c'
    end.
Proof.
  intros Hs. cbv zeta.
  destruct (register_json_cases e1 f c)
    as [(Hn & _)|(u & p & Hf & Hu & Hp & Hx & Hv & Hr)].
  { simpl in Hn. rewrite Hs in Hn. destruct Hn as [E|[E|[E|[]]]]; discriminate. }
  exists u. split; [exact Hu|].
  rewrite Hr. cbn [final].
  set (c1 := c ++ [stored_user e1 u p]).
  assert (Hh : holds u (bcrypt_hash p (genSalt 10 (entropy e1))) (serve_all_json v h c1)).
  { apply (extends_holds (proj1 (serve_all_json_keeps h c1))).
    exists (length c), (stored_user e1 u p). split; [|reflexivity].
    unfold c1, findOne in *. rewrite find_from_app, Hx.
    unfold has_username. simpl. now rewrite String.eqb_refl. }
  destruct Hh as (i & d & Hd & Hpw).
  assert (Hl : lookup (field_username f) (serve_all_json v h c1) = inr (Some (i, d))).
  { now rewrite (lookup_cast _ _ Hu), Hd. }
  destruct (findOne_Some _ _ Hd) as (_ & Hdu).
  assert (Hs' : (exists s, field_password f = JSstring s) \/
                forall s, field_password f <> JSstring s).
  { destruct (field_password f); try (right; discriminate). left. eauto. }
  destruct Hs' as [(s & Hq)|Hq].
  - rewrite Hq in Hp |- *. simpl in Hp. injection Hp as ->.
    rewrite (@login_json_accepted _ _ v e2 f _ i d p Hf Hl Hq).
    + simpl. now rewrite Hdu.
    + rewrite Hpw. apply bcrypt_compare_hash.
    + unfold valid in *. rewrite Hdu, Hpw, hash_passes_validation.
      destruct (validate_username u); [discriminate|reflexivity].
  - rewrite (@login_json_not_a_string _ _ v e2 f _ (i, d) Hf Hl Hq).
    destruct (field_password f) as [| |b|t|s|l|l]; try (split; reflexivity).
    exfalso. now apply (Hq s).
Qed.

End JsonHistories.

(** ** The application of the later version *)

Lemma quiet_run (e : Env) `{Blowfish} (R : Type) (m : prog R) (c : Collection) :
  trace (exec e m c) = [] -> final (exec e m c) = c.
Proof.
  destruct m as [r|X o k]; simpl; [reflexivity|].
  destruct (perform e o c). discriminate.
Qed.

Lemma exec_bind_ret `{Blowfish} (e : Env) (A B : Type) (m : prog A) (g : A -> B)
      (c : Collection) :
  exec e (bind m (fun a => Ret (g a))) c =
  mkRun (g (result (exec e m c))) (final (exec e m c)) (trace (exec e m c)).
Proof.
  revert c. induction m as [a|X o k IH]; intros c; simpl; [reflexivity|].
  destruct (perform e o c) as [x c1]. now rewrite IH.
Qed.

Section ApplicationFacts.
Context `{Blowfish} `{Operators}.
Variable matches : string -> string -> bool.

Lemma harmless_app (e : Env) (rq : Request) : harmless (app matches e rq).
Proof.
  unfold app. destruct (cors_origin (req_origin rq)); [exact I|].
  destruct (req_method rq =? "OPTIONS")%string; [exact I|].
  destruct ((req_method rq =? "POST")%string && matches "/api/register" (req_path rq)).
  { apply harmless_bind; [apply harmless_register_json|intros a; exact I]. }
  destruct ((req_method rq =? "POST")%string && matches "/api/login" (req_path rq)).
  { apply harmless_bind; [apply harmless_login_json|intros a; exact I]. }
  exact I.
Qed.

(** X9.  Whatever request the later version serves, with a body of any
    type, the usernames stay pairwise distinct and every stored
    document keeps its position, username, password and creation date.
    An operation is awaited only for a POST whose path matches one of
    the two routes and whose [Origin] header is absent, empty or the
    allowed origin; without an awaited operation the collection is as
    before.  A request whose [Origin] header has any other value is
    refused with the CORS error before anything is awaited, whatever
    its method and path; a request without the header, or with an
    empty one, is never refused so. *)
Theorem app_guards_the_collection (e : Env) (rq : Request) (c : Collection) :
  NoDup (map username c) ->
  let r := exec e (app matches e rq) c in
  NoDup (map username (final r)) /\
  (forall i d, nth_error c i = Some d ->
     exists d', nth_error (final r) i = Some d' /\
                username d' = username d /\ password d' = password d /\
                createdAt d' = createdAt d) /\
  (trace r <> [] ->
     (req_origin rq = None \/ req_origin rq = Some "" \/
      req_origin rq = Some "https://arts-wave.vercel.app") /\
     req_method rq = "POST" /\
     (matches "/api/register" (req_path rq) = true \/
      matches "/api/login" (req_path rq) = true)) /\
  (trace r = [] -> final r = c) /\
  (forall o, req_origin rq = Some o -> o <> "" -> o <> "https://arts-wave.vercel.app" ->
     r = mkRun (Errored "Not allowed by CORS") c []) /\
  (req_origin rq = None \/ req_origin rq = Some "" ->
     result r <> Errored "Not allowed by CORS").
Proof.
  intros Hn. cbv zeta.
  destruct (exec_keeps e (app matches e rq) c (harmless_app e rq)) as (He & Hn').
  split; [auto|]. split.
  { intros i d Hd. destruct (extends_nth_error i He Hd) as (d' & Hd' & Hc).
    exists d'. unfold core in Hc. injection Hc as -> -> ->. auto. }
  split; [|split; [apply quiet_run|split]].
  - unfold app, cors_origin.
    destruct (falsy (req_origin rq) ||
              existsb (String.eqb (str (req_origin rq))) allowedOrigins) eqn:Ho;
      [|simpl; congruence].
    intros Ht. split.
    { destruct (req_origin rq) as [o|]; [|now left]. right. simpl in Ho.
      destruct (String.eqb_spec o "") as [E|_]; [subst o; now left|]. right.
      rewrite orb_false_r in Ho. simpl in Ho. apply String.eqb_eq in Ho. now subst o. }
    revert Ht.
    destruct (req_method rq =? "OPTIONS")%string; [simpl; congruence|].
    destruct (String.eqb_spec (req_method rq) "POST") as [Hm|Hm];
      [|simpl; congruence].
    simpl.
    destruct (matches "/api/register" (req_path rq)); [auto|].
    destruct (matches "/api/login" (req_path rq)); [auto|].
    simpl. congruence.
  - intros o Ho He1 He2. unfold app, cors_origin. rewrite Ho. simpl.
    apply String.eqb_neq in He1, He2. now rewrite He1, He2.
  - intros Ho. unfold app.
    assert (Hc : cors_origin (req_origin rq) = inr true).
    { destruct Ho as [-> | ->]; reflexivity. }
    rewrite Hc.
    destruct (req_method rq =? "OPTIONS")%string; [discriminate|].
    destruct ((req_method rq =? "POST")%string && matches "/api/register" (req_path rq)).
    { rewrite exec_bind_ret. discriminate. }
    destruct ((req_method rq =? "POST")%string && matches "/api/login" (req_path rq)).
    { rewrite exec_bind_ret. discriminate. }
    discriminate.
Qed.

End ApplicationFacts.

(** ** Salts *)

Lemma append_inj_l (a b c : string) : (a ++ b = a ++ c)%string -> b = c.
Proof. induction a as [|x a IH]; simpl; [auto|]. intros [= E]. auto. Qed.

(** X10.  Two registrations whose salts differ store different
    password fields, whatever the two passwords, equal ones
    included. *)
Theorem different_salts_different_hashes `{Blowfish}
        (e1 e2 : Env) (b1 b2 : Body) (c1 c2 : Collection) :
  status (result (exec e1 (register e1 b1) c1)) = 201 ->
  status (result (exec e2 (register e2 b2) c2)) = 201 ->
  fit 22 (entropy e1) <> fit 22 (entropy e2) ->
  exists d1 d2,
    findOne (str (req_username b1)) (final (exec e1 (register e1 b1) c1)) =
      Some (length c1, d1) /\
    findOne (str (req_username b2)) (final (exec e2 (register e2 b2) c2)) =
      Some (length c2, d2) /\
    password d1 <> password d2.
Proof.
  intros H1 H2 Hsalt.
  eexists _, _. split; [apply (register_stores_hash e1 b1 c1 H1)|].
  split; [apply (register_stores_hash e2 b2 c2 H2)|].
  simpl. unfold bcrypt_hash. intros E. apply Hsalt.
  apply (f_equal (substring 0 29)) in E.
  rewrite <- (length_genSalt 10 (entropy e1)) in E at 1.
  rewrite substring_append in E.
  rewrite <- (length_genSalt 10 (entropy e2)) in E at 1.
  rewrite substring_append in E.
  unfold genSalt in E. now apply append_inj_l in E.
Qed.

(** ** Concrete runs of the further properties *)

Lemma alice_registered_unique : NoDup (map username alice_registered).
Proof. cbn. constructor; [intros []|constructor]. Qed.

Lemma alice_registered_well_formed : Forall (well_formed (H:=toy)) alice_registered.
Proof.
  cbn. constructor; [|constructor].
  exists "secret1", (entropy at_1000). split; reflexivity.
Qed.

(** X1: the calls after alice's registration, one after the other. *)
Lemma history_keeps_users_alice :
  NoDup (map username (serve_all (H:=toy) MockToken later_calls alice_registered)) /\
  forall i d, nth_error alice_registered i = Some d ->
    exists d', nth_error (serve_all (H:=toy) MockToken later_calls alice_registered) i
               = Some d' /\
               username d' = username d /\ password d' = password d /\
               createdAt d' = createdAt d.
Proof.
  apply (@history_keeps_users toy MockToken later_calls alice_registered).
  exact alice_registered_unique.
Defined.

(** X2: the same calls in flight together, resumed in turn. *)
Lemma pool_keeps_users_alice :
  NoDup (map username
           (snd (run_pool (H:=toy) [0; 1; 2; 3; 0; 1; 2; 3; 0; 1; 2; 3; 1; 1]
                          (in_flight MockToken later_calls) alice_registered))) /\
  forall i d, nth_error alice_registered i = Some d ->
    exists d', nth_error
                 (snd (run_pool (H:=toy) [0; 1; 2; 3; 0; 1; 2; 3; 0; 1; 2; 3; 1; 1]
                                (in_flight MockToken later_calls) alice_registered)) i
               = Some d' /\
               username d' = username d /\ password d' = password d /\
               createdAt d' = createdAt d.
Proof.
  apply (@pool_keeps_users toy MockToken later_calls).
  exact alice_registered_unique.
Defined.

(** X3: from the empty collection, along the history of alice. *)
Lemma stored_documents_well_formed_alice :
  Forall (fun d => well_formed (H:=toy) d /\
                   substring 0 7 (password d) = bcrypt_prefix 10 /\
                   valid (username d) (password d) = true)
         (serve_all (H:=toy) Original alice_history []).
Proof.
  apply (@stored_documents_well_formed toy Original alice_history []).
  constructor.
Defined.

(** X8: alice and bob register at the same time, resumed in turn. *)
Lemma distinct_registrations_all_succeed_alice_bob :
  forallb succeeded
    (fst (run_pool (H:=toy) [0; 1; 0; 1; 0; 1; 0; 1] (registrations_of alice_and_bob) []))
  = true /\
  Forall (fun r => stored (fst (snd r))
                     (snd (run_pool (H:=toy) [0; 1; 0; 1; 0; 1; 0; 1]
                                    (registrations_of alice_and_bob) [])) = true)
         alice_and_bob.
Proof.
  apply (@distinct_registrations_all_succeed toy alice_and_bob).
  - cbn. constructor; [intros [E|[]]; discriminate|].
    constructor; [intros []|constructor].
  - repeat constructor.
  - reflexivity.
Defined.

(** X9: alice's login from the allowed origin and from another one,
    with routes matched by equality of paths. *)
Lemma app_guards_the_collection_alice :
  let r := exec (H:=toy) at_2000 (app (H:=only_ne) String.eqb at_2000 alice_login_request)
                alice_registered in
  NoDup (map username (final r)) /\
  (exists d', nth_error (final r) 0 = Some d' /\
              username d' = "alice" /\
              password d' = bcrypt_hash (H:=toy) "secret1" (genSalt 10 (entropy at_1000)) /\
              createdAt d' = 1000%Z) /\
  exec (H:=toy) at_2000 (app (H:=only_ne) String.eqb at_2000 foreign_login_request)
       alice_registered = mkRun (Errored "Not allowed by CORS") alice_registered [].
Proof.
  pose proof (@app_guards_the_collection toy only_ne String.eqb at_2000
                alice_login_request alice_registered alice_registered_unique) as Ha.
  pose proof (@app_guards_the_collection toy only_ne String.eqb at_2000
                foreign_login_request alice_registered alice_registered_unique) as Hf.
  cbv zeta in *.
  refine (conj (proj1 Ha) (conj (proj1 (proj2 Ha) 0 _ eq_refl) _)).
  apply (proj1 (proj2 (proj2 (proj2 (proj2 Hf)))) "http://localhost:3000" eq_refl);
    discriminate.
Defined.

(** What alice's login gets through the application. *)
Example app_runs :
  result (exec (H:=toy) at_2000 (app (H:=only_ne) String.eqb at_2000 alice_login_request)
               alice_registered) = Sent (logged_in MockToken at_2000 "alice").
Proof. reflexivity. Qed.

(** X10: alice and bob register the same password. *)
Lemma different_salts_different_hashes_alice_bob :
  exists d1 d2,
    findOne "alice"
      (final (exec (H:=toy) at_1000 (register at_1000 (creds "alice" "secret1")) [])) =
      Some (0, d1) /\
    findOne "bob"
      (final (exec (H:=toy) at_2000 (register at_2000 (creds "bob" "secret1"))
                   alice_registered)) = Some (1, d2) /\
    password d1 <> password d2.
Proof.
  apply (@different_salts_different_hashes toy at_1000 at_2000
           (creds "alice" "secret1") (creds "bob" "secret1") [] alice_registered).
  - reflexivity.
  - reflexivity.
  - discriminate.
Defined.

(** ** Concrete runs with bodies of any type *)

(** C2: bob is not registered.  Alice with a wrong password that is a
    string is answered as bob is; alice with a number as password is
    answered 500. *)
Lemma login_failure_depends_on_password_type_alice :
  login_answer MockToken at_3000 bob_1234567 alice_registered =
    failure 401 "Invalid credentials" /\
  login_answer Original at_2000 (of_body (creds "alice" "wrong")) alice_registered =
    login_answer MockToken at_3000 bob_1234567 alice_registered /\
  login_answer Original at_2000 alice_1234567 alice_registered =
    failure 500 "Internal server error during login" /\
  login_answer Original at_2000 alice_1234567 alice_registered <>
    login_answer MockToken at_3000 bob_1234567 alice_registered.
Proof.
  pose proof (@login_failure_depends_on_password_type toy only_ne Original MockToken
                at_2000 at_3000 alice_registered (of_body (creds "alice" "wrong"))
                bob_1234567 0 (stored_user (H:=toy) at_1000 "alice" "secret1")
                eq_refl eq_refl eq_refl eq_refl) as Hs.
  pose proof (@login_failure_depends_on_password_type toy only_ne Original MockToken
                at_2000 at_3000 alice_registered alice_1234567
                bob_1234567 0 (stored_user (H:=toy) at_1000 "alice" "secret1")
                eq_refl eq_refl eq_refl eq_refl) as Hn.
  cbv zeta in *. unfold login_answer.
  refine (conj (proj1 Hs) (conj (proj1 (proj2 Hs) "wrong" eq_refl eq_refl) _)).
  apply (proj2 (proj2 Hn)). discriminate.
Defined.

(** C6 fails as stated.  Two logins of alice are in flight together;
    the first reads the clock at 2000, the second at 3000, and the
    write of the second lands first: both are answered 200, and the
    [lastLogin] of alice goes from absent to 3000 and then back to
    2000.  The same happens to requests served one after the other
    when the clock of the machine is set back between them. *)
Lemma lastLogin_goes_back :
  lastLoginOf "alice" alice_registered = None /\
  statuses (fst (run_pool (H:=toy) [0; 0; 1; 1; 1]
                   (in_flight Original two_logins) alice_registered)) =
    [None; Some 200] /\
  lastLoginOf "alice" (snd (run_pool (H:=toy) [0; 0; 1; 1; 1]
                              (in_flight Original two_logins) alice_registered)) =
    Some 3000%Z /\
  statuses (fst (run_pool (H:=toy) [0; 0; 1; 1; 1; 0]
                   (in_flight Original two_logins) alice_registered)) =
    [Some 200; Some 200] /\
  lastLoginOf "alice" (snd (run_pool (H:=toy) [0; 0; 1; 1; 1; 0]
                              (in_flight Original two_logins) alice_registered)) =
    Some 2000%Z /\
  map (fun h => lastLoginOf "alice" (serve_all (H:=toy) Original h alice_registered))
      [[(at_3000, Login (creds "alice" "secret1"))];
       [(at_3000, Login (creds "alice" "secret1"));
        (at_2000, Login (creds "alice" "secret1"))]] =
    [Some 3000%Z; Some 2000%Z].
Proof. repeat split; reflexivity. Qed.

Lemma alice_refused_never_logged_in (h1 h2 : list call_json) (x : call_json) :
  alice_refused = h1 ++ x :: h2 ->
  result (serve_json (H:=toy) (H0:=only_ne) Original x
            (serve_all_json (H:=toy) (H0:=only_ne) Original h1 [])) <>
  logged_in Original (fst x) "alice".
Proof.
  unfold alice_refused.
  destruct h1 as [|a [|b [|d [|? ?]]]]; simpl; intros [= E1 E2];
    try (destruct h2; discriminate); subst; discriminate.
Qed.

(** C6: alice is refused twice and her [lastLogin] is absent; her first
    login sets it to the 2000 of that request; and along her history,
    with readings 1000, 2000, 2000, 3000, the 3000 it ends with is not
    below the 2000 it had after the second request. *)
Lemma lastLogin_absent_then_monotone_alice :
  lastLoginOf "alice"
    (serve_all_json (H:=toy) (H0:=only_ne) Original alice_refused []) = None /\
  lastLoginOf "alice"
    (serve_all_json (H:=toy) (H0:=only_ne) Original (firstn 2 alice_history_json) []) =
    Some 2000%Z /\
  le_opt (lastLoginOf "alice"
            (serve_all_json (H:=toy) (H0:=only_ne) Original
               (firstn 2 alice_history_json) []))
         (lastLoginOf "alice"
            (serve_all_json (H:=toy) (H0:=only_ne) Original alice_history_json [])).
Proof.
  refine (conj _ (conj _ _)).
  - apply (proj1 (@lastLogin_absent_then_monotone toy only_ne Original "alice"
                    alice_refused)).
    intros h1 x h2. apply alice_refused_never_logged_in.
  - exact (proj1 (proj2 (@lastLogin_absent_then_monotone toy only_ne Original "alice"
                           (firstn 2 alice_history_json)))
             (firstn 1 alice_history_json)
             (at_2000, LoginJson (of_body (creds "alice" "secret1")))
             eq_refl eq_refl).
  - exact (proj2 (proj2 (@lastLogin_absent_then_monotone toy only_ne Original "alice"
                           alice_history_json))
             eq_refl (firstn 2 alice_history_json) (skipn 2 alice_history_json) eq_refl).
Defined.

(** The values [lastLogin] takes along that history: the last request
    sends a filter as username and is logged in as alice. *)
Example alice_lastLogin_values_json :
  map (fun n => lastLoginOf "alice"
                  (serve_all_json (H:=toy) (H0:=only_ne) Original
                     (firstn n alice_history_json) []))
      [1; 2; 3; 4] =
  [None; Some 2000%Z; Some 2000%Z; Some 3000%Z].
Proof. reflexivity. Qed.

(** X4: logins after alice has registered: her password, a number, a
    filter that matches her username, bob, and an object without an
    operator, which does not cast to a filter. *)
Lemma login_status_table_alice :
  status (login_answer Original at_2000 (of_body (creds "alice" "secret1"))
            alice_registered) = 200 /\
  status (login_answer Original at_2000 alice_1234567 alice_registered) = 500 /\
  status (login_answer Original at_2000 anyone_but_bob alice_registered) = 200 /\
  status (login_answer Original at_2000 bob_1234567 alice_registered) = 401 /\
  status (login_answer Original at_2000
            (mkFields (JSobject [("name", JSstring "alice")]) (JSstring "secret1"))
            alice_registered) = 500.
Proof.
  unfold login_answer.
  refine (conj _ (conj _ (conj _ (conj _ _))));
    exact (@login_status_table toy only_ne Original at_2000 _ alice_registered
             alice_registered_well_formed).
Defined.


(** X6: alice, registered with a string, logs in after the later
    calls; carol, registered with the number 1234567, is answered 500
    with the same body, and is logged in with the string. *)
Lemma credentials_keep_working_alice :
  login_answer MockToken at_3000 (of_body (creds "alice" "secret1"))
    (serve_all_json (H:=toy) (H0:=only_ne) MockToken later_calls_json alice_registered) =
    logged_in MockToken at_3000 "alice" /\
  login_answer MockToken at_3000 carol_1234567
    (serve_all_json (H:=toy) (H0:=only_ne) MockToken later_calls_json carol_registered) =
    failure 500 "Internal server error during login" /\
  login_answer MockToken at_3000 (of_body (creds "carol" "1234567"))
    (serve_all_json (H:=toy) (H0:=only_ne) MockToken later_calls_json carol_registered) =
    logged_in MockToken at_3000 "carol".
Proof.
  destruct (@credentials_keep_working toy only_ne MockToken at_1000 at_3000
              (of_body (creds "alice" "secret1")) later_calls_json [] eq_refl)
    as (u & Hu & Ha).
  destruct (@credentials_keep_working toy only_ne MockToken at_1000 at_3000
              carol_1234567 later_calls_json [] eq_refl)
    as (u' & Hu' & Hc & _).
  injection Hu as <-.
  refine (conj Ha (conj Hc _)). reflexivity.
Defined.
